(** * INTERSECT instrument-controller simulator: lifecycle model

    Shallow embedding of [simulator/python/app/main.py].

    The FastAPI application keeps three module globals ([_event_queue],
    [_activities], [_next_activity_num]) and spawns asyncio tasks that
    sleep and then mutate the registered records.  Here the globals and
    the set of sleeping tasks form an explicit [State]; every handler and
    every task segment between two [await asyncio.sleep] is one atomic
    transition, because an [await] on the unbounded queue never suspends.
    Which sleeping task wakes next is left to the environment.

    Python [str] values are Rocq strings; the case mapping of [str.upper]
    is modelled on the ASCII letters.  Clock readings and [uuid.uuid4]
    draws are supplied by the environment, numbered per transition. *)

From Stdlib Require Import ZArith NArith String Ascii List Lia.
From Stdlib Require Import DecimalString DecimalN.
From stdpp Require Import base option list gmap strings sorting.

Local Open Scope string_scope.
Local Open Scope list_scope.

(** ** Python string helpers *)

Module Py.

(** [bool(s)] for a string. *)
Definition truthy (s : string) : bool :=
  match s with EmptyString => false | String _ _ => true end.

Definition is_lower (c : ascii) : bool :=
  ((97 <=? nat_of_ascii c)%nat && (nat_of_ascii c <=? 122)%nat)%bool.


Definition is_digit (c : ascii) : bool :=
  ((48 <=? nat_of_ascii c)%nat && (nat_of_ascii c <=? 57)%nat)%bool.

Definition char_upper (c : ascii) : ascii :=
  if is_lower c then ascii_of_nat (nat_of_ascii c - 32) else c.

(** [s.upper()].  A string is read as a [str] whose code points are
    below 256; there only the ASCII letters have an upper case that an
    ASCII word can contain. *)
Fixpoint upper (s : string) : string :=
  match s with
  | EmptyString => EmptyString
  | String c r => String (char_upper c) (upper r)
  end.

(** [s.replace(old, new)]: every non-overlapping occurrence, scanning
    from the left.  [skip] counts the characters of a matched
    occurrence that are still to be dropped. *)
Fixpoint replace_from (old new : string) (skip : nat) (s : string) : string :=
  match s with
  | EmptyString => EmptyString
  | String c r =>
      match skip with
      | S k => replace_from old new k r
      | O =>
          if String.prefix old s
          then new +:+ replace_from old new (String.length old - 1) r
          else String c (replace_from old new 0 r)
      end
  end.

Fixpoint intersperse_str (new s : string) : string :=
  match s with
  | EmptyString => new
  | String c r => new +:+ String c (intersperse_str new r)
  end.

Definition replace (old new s : string) : string :=
  match old with
  | EmptyString => intersperse_str new s
  | String _ _ => replace_from old new 0 s
  end.

(** [s.zfill(w)] on a string of digits, the padding of the format
    specification [0wd]. *)
Fixpoint zeros (k : nat) : string :=
  match k with O => EmptyString | S k' => String "0" (zeros k') end.

Definition zfill (w : nat) (s : string) : string :=
  zeros (w - String.length s) +:+ s.

(** [f"{n:04d}"] for a non-negative integer. *)
Definition format_04d (n : N) : string :=
  zfill 4 (NilZero.string_of_uint (N.to_uint n)).

Definition hex_digit (d : Z) : ascii :=
  ascii_of_nat (Z.to_nat (if (d <? 10)%Z then 48 + d else 87 + d)%Z).

(** The [k] low hexadecimal digits of [n], most significant first. *)
Fixpoint hex (k : nat) (n : Z) : string :=
  match k with
  | O => EmptyString
  | S k' => hex k' (n / 16)%Z +:+ String (hex_digit (n mod 16)%Z) EmptyString
  end.

Definition substr (a b : nat) (s : string) : string :=
  String.substring a (b - a) s.

(** [str(u)] for a [uuid.UUID] with 128-bit integer value [u]:
    ['%s-%s-%s-%s-%s' % (h[:8], h[8:12], h[12:16], h[16:20], h[20:])]
    with [h = '%032x' % u]. *)
Definition str_uuid (u : Z) : string :=
  let h := hex 32 u in
  substr 0 8 h +:+ "-" +:+ substr 8 12 h +:+ "-" +:+ substr 12 16 h +:+ "-"
    +:+ substr 16 20 h +:+ "-" +:+ substr 20 32 h.

End Py.

(** ** The datetime library, as far as the simulator uses it *)

(** A [datetime]: its wall-clock reading in microseconds since the epoch
    and, for an aware value, its UTC offset in microseconds. *)
Record datetime := { wall : Z; utcoffset : option Z }.

(** The operations the source imports.  [isoparse] raises on a string it
    cannot read ([inl] carries [str(e)]); [isoformat] renders an aware UTC
    value whose microsecond is zero, given in whole seconds;
    [local_utcoffset] is the system zone that [astimezone] assumes for a
    naive value. *)
Class DatetimeLib := {
  isoparse : string -> string + datetime;
  isoformat : Z -> string;
  local_utcoffset : Z -> Z
}.

(** What the environment hands to one transition: the [k]-th reading of
    [datetime.now(timezone.utc)] (microseconds) and the [k]-th draw of
    [uuid.uuid4()] (its integer value) made by that transition. *)
Record Env := { now : nat -> Z; uuid4 : nat -> Z }.

(** ** Request models and the activity record *)

Inductive jvalue :=
| VStr (s : string)
| VBool (b : bool)
| VList (l : list string)
| VNone.

Record KeyValString := { key : string; value : string }.

Record PerformActionCmd := {
  cmd_actionName : string;
  cmd_actionOptions : option (list KeyValString)
}.

Record CancelActivityCmd := {
  cancel_activityId : string;
  cancel_reason : string
}.

Record StartActivityReq := {
  req_activityName : string;
  req_activityOptions : option (list KeyValString);
  req_activityDeadline : option string
}.

Record ActivityState := {
  activityId : string;
  activityName : string;
  status : string;
  timeBegin : string;
  timeEnd : option string;
  statusMsg : option string;
  products : list string;
  deadline : option datetime
}.

Definition ACTIVITY_PENDING := "ACTIVITY_PENDING".
Definition ACTIVITY_IN_PROGRESS := "ACTIVITY_IN_PROGRESS".
Definition ACTIVITY_COMPLETED := "ACTIVITY_COMPLETED".
Definition ACTIVITY_CANCELED := "ACTIVITY_CANCELED".

Definition ACTIONS : list string := ["HOME"; "MOVE"; "CALIBRATE"].
Definition ACTIVITIES : list string := ["BUILD"; "SCAN"].

(** An entry of the event queue: the dict
    [{"eventName": ..., "eventData": ...}]. *)
Record Envelope := {
  eventName : string;
  eventData : gmap string jvalue
}.

(** Where a suspended [run] coroutine resumes. *)
Inductive run_point := after_sleep_1 | after_sleep_2.

(** A task created by [asyncio.create_task] that has not finished.  The
    closure of [complete] holds [cmd] and [t_begin]; the closure of [run]
    holds the record [st], named here by the key it is registered under. *)
Inductive Task :=
| Task_complete (cmd : PerformActionCmd) (t_begin : string)
| Task_run (st : string) (pc : run_point).

Record State := {
  _event_queue : list Envelope;
  _activities : gmap string ActivityState;
  _next_activity_num : N;
  tasks : list Task
}.

Definition init : State :=
  {| _event_queue := []; _activities := ∅; _next_activity_num := 1; tasks := [] |}.

(** What a request is answered with: a JSON body under a status code, an
    [HTTPException] raised by the handler, or the framework's refusal of
    a body that breaks a [Field] constraint (HTTP 422). *)
Inductive Response :=
| JSON (status_code : nat) (body : gmap string jvalue)
| HTTPException (status_code : nat) (detail : string)
| ValidationError.

(** Field updates of the record and of the state. *)

Definition set_status (v : string) (st : ActivityState) : ActivityState :=
  {| activityId := activityId st; activityName := activityName st; status := v;
     timeBegin := timeBegin st; timeEnd := timeEnd st; statusMsg := statusMsg st;
     products := products st; deadline := deadline st |}.

Definition set_timeEnd (v : string) (st : ActivityState) : ActivityState :=
  {| activityId := activityId st; activityName := activityName st; status := status st;
     timeBegin := timeBegin st; timeEnd := Some v; statusMsg := statusMsg st;
     products := products st; deadline := deadline st |}.

Definition set_statusMsg (v : string) (st : ActivityState) : ActivityState :=
  {| activityId := activityId st; activityName := activityName st; status := status st;
     timeBegin := timeBegin st; timeEnd := timeEnd st; statusMsg := Some v;
     products := products st; deadline := deadline st |}.

Definition set_products (v : list string) (st : ActivityState) : ActivityState :=
  {| activityId := activityId st; activityName := activityName st; status := status st;
     timeBegin := timeBegin st; timeEnd := timeEnd st; statusMsg := statusMsg st;
     products := v; deadline := deadline st |}.

Definition with_queue (q : list Envelope) (s : State) : State :=
  {| _event_queue := q; _activities := _activities s;
     _next_activity_num := _next_activity_num s; tasks := tasks s |}.

Definition with_activities (m : gmap string ActivityState) (s : State) : State :=
  {| _event_queue := _event_queue s; _activities := m;
     _next_activity_num := _next_activity_num s; tasks := tasks s |}.

Definition with_next (n : N) (s : State) : State :=
  {| _event_queue := _event_queue s; _activities := _activities s;
     _next_activity_num := n; tasks := tasks s |}.

Definition with_tasks (l : list Task) (s : State) : State :=
  {| _event_queue := _event_queue s; _activities := _activities s;
     _next_activity_num := _next_activity_num s; tasks := l |}.

(** A small instance, for running the model on examples: it reads one
    deadline string, renders seconds as a decimal count, and sits in UTC. *)
Definition demo_lib : DatetimeLib :=
  {| isoparse := fun s =>
       if String.eqb s "1970-01-01T00:00:00Z"
       then inr {| wall := 0; utcoffset := Some 0%Z |}
       else inl ("Invalid isoformat string: " +:+ s);
     isoformat := fun t =>
       NilZero.string_of_uint (N.to_uint (Z.to_N t)) +:+ "+00:00";
     local_utcoffset := fun _ => 0%Z |}.

Definition demo_env : Env :=
  {| now := fun k => (1000000 + Z.of_nat k)%Z; uuid4 := fun k => (255 + Z.of_nat k)%Z |}.

(** ** Handlers and task bodies *)

Section Simulator.
Context `{DatetimeLib}.

(** [now_ts()], from one clock reading: drop the microseconds, render,
    and write the UTC offset as [Z]. *)
Definition now_ts (clock : Z) : string :=
  Py.replace "+00:00" "Z" (isoformat (clock / 1000000)%Z).

(** [d.astimezone(timezone.utc)], as an instant in microseconds. *)
Definition astimezone_utc (d : datetime) : Z :=
  match utcoffset d with
  | Some off => (wall d - off)%Z
  | None => (wall d - local_utcoffset (wall d))%Z
  end.

(** [emit]: [_event_queue.put] on the unbounded queue. *)
Definition emit (event_name : string) (event_data : gmap string jvalue)
    (s : State) : State :=
  with_queue (_event_queue s ++ [{| eventName := event_name; eventData := event_data |}]) s.

Definition create_task (t : Task) (s : State) : State :=
  with_tasks (tasks s ++ [t]) s.

Definition healthz (E : Env) : Response :=
  JSON 200 {[ "ok" := VBool true; "ts" := VStr (now_ts (now E 0)) ]}.

Definition list_actions : Response :=
  JSON 200 {[ "actionNames" := VList ACTIONS ]}.

Definition list_activities : Response :=
  JSON 200 {[ "activityNames" := VList ACTIVITIES ]}.

(** [perform_action]: accept, and leave [complete] sleeping. *)
Definition perform_action (E : Env) (cmd : PerformActionCmd) (s : State)
    : Response * State :=
  let t_begin := now_ts (now E 0) in
  (JSON 202 {[ "accepted" := VBool true ]},
   create_task (Task_complete cmd t_begin) s).

(** The body of [complete] after its sleep. *)
Definition complete (E : Env) (cmd : PerformActionCmd) (t_begin : string)
    (s : State) : State :=
  let t_end := now_ts (now E 0) in
  let '(status, msg) :=
    if String.eqb (Py.upper (cmd_actionName cmd)) "CALIBRATE"
    then ("ACTION_FAILURE", Some "Calibration target not found")
    else ("ACTION_SUCCESS", None) in
  let payload : gmap string jvalue :=
    {[ "actionName" := VStr (cmd_actionName cmd);
       "actionStatus" := VStr status;
       "timeBegin" := VStr t_begin;
       "timeEnd" := VStr t_end ]} in
  let payload :=
    match msg with
    | Some m => if Py.truthy m then <["statusMsg" := VStr m]> payload else payload
    | None => payload
    end in
  emit "InstrumentActionCompletion" payload s.

(** The payload of a status-change event, read off the record. *)
Definition status_change (st : ActivityState) : gmap string jvalue :=
  {[ "activityId" := VStr (activityId st);
     "activityName" := VStr (activityName st);
     "activityStatus" := VStr (status st) ]}.

Definition status_change_msg (st : ActivityState) : gmap string jvalue :=
  <["statusMsg" := match statusMsg st with Some m => VStr m | None => VNone end]>
    (status_change st).

(** The deadline of a start request: [None] when absent or empty,
    otherwise what [isoparse] gives or raises. *)
Definition parse_deadline (req : StartActivityReq) : string + option datetime :=
  match req_activityDeadline req with
  | Some d =>
      if Py.truthy d
      then match isoparse d with
           | inl e => inl e
           | inr dt => inr (Some dt)
           end
      else inr None
  | None => inr None
  end.

(** [f"act_{n:04d}"] *)
Definition format_activity_id (n : N) : string := "act_" +:+ Py.format_04d n.

Definition start_activity (E : Env) (req : StartActivityReq) (s : State)
    : Response * State :=
  if negb (bool_decide (req_activityName req ∈ ACTIVITIES)) then
    (JSON 200 {[ "activityId" := VStr "";
                 "errorMsg" := VStr ("Unknown activityName: " +:+ req_activityName req) ]},
     s)
  else
    let activity_id := format_activity_id (_next_activity_num s) in
    let s := with_next (_next_activity_num s + 1)%N s in
    match parse_deadline req with
    | inl e =>
        (JSON 200 {[ "activityId" := VStr "";
                     "errorMsg" := VStr ("Invalid activityDeadline: " +:+ e) ]},
         s)
    | inr deadline_dt =>
        let st :=
          {| activityId := activity_id; activityName := req_activityName req;
             status := ACTIVITY_PENDING; timeBegin := now_ts (now E 0);
             timeEnd := None; statusMsg := None; products := [];
             deadline := deadline_dt |} in
        let s := with_activities (<[activity_id := st]> (_activities s)) s in
        let s := emit "InstrumentActivityStatusChange" (status_change st) s in
        let s := create_task (Task_run activity_id after_sleep_1) s in
        (JSON 200 {[ "activityId" := VStr (activityId st) ]}, s)
    end.

(** [run] between its first and second sleep; [st_key] is the key of
    the captured record.  A key that is not registered cannot occur
    (see [inv_tasks_registered]); the model then does nothing. *)
Definition run_1 (st_key : string) (s : State) : State :=
  match _activities s !! st_key with
  | None => s
  | Some st =>
      let st := set_status ACTIVITY_IN_PROGRESS st in
      let s := with_activities (<[st_key := st]> (_activities s)) s in
      emit "InstrumentActivityStatusChange" (status_change st) s
  end.

(** [run] after its second sleep, to its end. *)
Definition run_2 (E : Env) (st_key : string) (s : State) : State :=
  match _activities s !! st_key with
  | None => s
  | Some st =>
      if match deadline st with
         | Some d => (astimezone_utc d <? now E 0)%Z
         | None => false
         end
      then
        let st := set_status ACTIVITY_CANCELED st in
        let st := set_statusMsg "Deadline exceeded" st in
        let st := set_timeEnd (now_ts (now E 1)) st in
        let s := with_activities (<[st_key := st]> (_activities s)) s in
        emit "InstrumentActivityStatusChange" (status_change_msg st) s
      else
        let st := set_status ACTIVITY_COMPLETED st in
        let st := set_timeEnd (now_ts (now E (match deadline st with Some _ => 1 | None => 0 end)%nat)) st in
        let st := set_products [Py.str_uuid (uuid4 E 0); Py.str_uuid (uuid4 E 1)] st in
        let s := with_activities (<[st_key := st]> (_activities s)) s in
        emit "InstrumentActivityStatusChange" (status_change st) s
  end.

Definition cancel_activity (E : Env) (cmd : CancelActivityCmd) (s : State)
    : Response * State :=
  match _activities s !! cancel_activityId cmd with
  | None => (HTTPException 404 "Unknown activityId", s)
  | Some st =>
      let st := set_status ACTIVITY_CANCELED st in
      let st := set_timeEnd (now_ts (now E 0)) st in
      let st := set_statusMsg (cancel_reason cmd) st in
      let s := with_activities (<[cancel_activityId cmd := st]> (_activities s)) s in
      let s := emit "InstrumentActivityStatusChange" (status_change_msg st) s in
      (JSON 202 {[ "accepted" := VBool true ]}, s)
  end.

Definition truthy_opt (o : option string) : bool :=
  match o with Some v => Py.truthy v | None => false end.

Definition get_activity_status (activity_id : string) (s : State) : Response :=
  match _activities s !! activity_id with
  | None => HTTPException 404 "Unknown activityId"
  | Some st =>
      let payload : gmap string jvalue :=
        {[ "activityStatus" := VStr (status st); "timeBegin" := VStr (timeBegin st) ]} in
      let payload :=
        match timeEnd st with
        | Some t => if Py.truthy t then <["timeEnd" := VStr t]> payload else payload
        | None => payload
        end in
      let payload :=
        match statusMsg st with
        | Some m => if Py.truthy m then <["statusMsg" := VStr m]> payload else payload
        | None => payload
        end in
      JSON 200 payload
  end.

Definition get_activity_data (activity_id : string) (s : State) : Response :=
  match _activities s !! activity_id with
  | None => HTTPException 404 "Unknown activityId"
  | Some st =>
      if negb (String.eqb (status st) ACTIVITY_COMPLETED)
      then JSON 200 {[ "products" := VList []; "errorMsg" := VStr "Data not ready" ]}
      else JSON 200 {[ "products" := VList (products st) ]}
  end.

(** ** The application as a transition system *)

(** The [Field(min_length=1)] constraints, checked before a handler runs. *)
Definition valid_options (o : option (list KeyValString)) : bool :=
  match o with
  | Some l => forallb (fun kv => Py.truthy (key kv)) l
  | None => true
  end.

Definition valid_PerformActionCmd (cmd : PerformActionCmd) : bool :=
  Py.truthy (cmd_actionName cmd) && valid_options (cmd_actionOptions cmd).

Definition valid_CancelActivityCmd (cmd : CancelActivityCmd) : bool :=
  Py.truthy (cancel_activityId cmd) && Py.truthy (cancel_reason cmd).

Definition valid_StartActivityReq (req : StartActivityReq) : bool :=
  Py.truthy (req_activityName req) && valid_options (req_activityOptions req).

Inductive Input :=
| GET_healthz
| GET_actions
| GET_activities
| POST_actions_perform (cmd : PerformActionCmd)
| POST_activities_start (req : StartActivityReq)
| POST_activities_cancel (cmd : CancelActivityCmd)
| GET_activity_status (activity_id : string)
| GET_activity_data (activity_id : string)
| GET_events_next
| Wake (k : nat).

(** The sleep of the [k]-th unfinished task elapses and the task runs
    to its next sleep or to its end. *)
Definition wake (E : Env) (k : nat) (s : State) : State :=
  match tasks s !! k with
  | None => s
  | Some (Task_complete cmd t_begin) =>
      complete E cmd t_begin (with_tasks (delete k (tasks s)) s)
  | Some (Task_run st after_sleep_1) =>
      run_1 st (with_tasks (<[k := Task_run st after_sleep_2]> (tasks s)) s)
  | Some (Task_run st after_sleep_2) =>
      run_2 E st (with_tasks (delete k (tasks s)) s)
  end.

(** The subscriber of [/events] takes the oldest envelope, if any. *)
Definition events_next (s : State) : option Envelope * State :=
  match _event_queue s with
  | [] => (None, s)
  | evt :: q => (Some evt, with_queue q s)
  end.

Definition step (E : Env) (i : Input) (s : State) : option Response * State :=
  match i with
  | GET_healthz => (Some (healthz E), s)
  | GET_actions => (Some list_actions, s)
  | GET_activities => (Some list_activities, s)
  | POST_actions_perform cmd =>
      if valid_PerformActionCmd cmd
      then let '(r, s') := perform_action E cmd s in (Some r, s')
      else (Some ValidationError, s)
  | POST_activities_start req =>
      if valid_StartActivityReq req
      then let '(r, s') := start_activity E req s in (Some r, s')
      else (Some ValidationError, s)
  | POST_activities_cancel cmd =>
      if valid_CancelActivityCmd cmd
      then let '(r, s') := cancel_activity E cmd s in (Some r, s')
      else (Some ValidationError, s)
  | GET_activity_status activity_id => (Some (get_activity_status activity_id s), s)
  | GET_activity_data activity_id => (Some (get_activity_data activity_id s), s)
  | GET_events_next => (None, (events_next s).2)
  | Wake k => (None, wake E k s)
  end.

(** The states the process can be in. *)
Inductive reachable : State -> Prop :=
| reachable_init : reachable init
| reachable_step E i s : reachable s -> reachable (step E i s).2.

(** A whole run: the answers, oldest first, and the final state. *)
Fixpoint exec (tr : list (Env * Input)) (s : State) : list (option Response) * State :=
  match tr with
  | [] => ([], s)
  | (E, i) :: tr' =>
      let '(r, s') := step E i s in
      let '(rs, s'') := exec tr' s' in
      (r :: rs, s'')
  end.

(** ** Vocabulary of the properties *)

Definition terminal (v : string) : Prop :=
  v = ACTIVITY_COMPLETED \/ v = ACTIVITY_CANCELED.





Definition strip_prefix (p s : string) : option string :=
  if String.prefix p s
  then Some (String.substring (String.length p) (String.length s - String.length p) s)
  else None.


(** The number an activity id carries. *)
Definition activity_number (id : string) : option N :=
  d ← strip_prefix "act_" id; N.of_uint <$> NilZero.uint_of_string d.


(** The id handed out by a start call that reported no error. *)
Definition started_id (ir : Input * option Response) : option string :=
  match ir with
  | (POST_activities_start _, Some (JSON _ body)) =>
      match body !! "errorMsg", body !! "activityId" with
      | None, Some (VStr id) => Some id
      | _, _ => None
      end
  | _ => None
  end.

Definition started_ids (tr : list (Env * Input)) (s : State) : list string :=
  omap started_id (zip (tr.*2) (exec tr s).1).

(** ** The invariant of the registry and the task set *)

(** Resume points of the unfinished [run] tasks that hold record [id]. *)
Definition run_pcs (l : list Task) (id : string) : list run_point :=
  omap (fun t => match t with
                 | Task_run i pc => if decide (i = id) then Some pc else None
                 | Task_complete _ _ => None
                 end) l.

(** What a record looks like, by where its [run] task stands. *)
Definition record_inv (pcs : list run_point) (st : ActivityState) : Prop :=
  match pcs with
  | [] =>
      timeEnd st <> None
      /\ ((status st = ACTIVITY_COMPLETED /\ length (products st) = 2%nat)
          \/ (status st = ACTIVITY_CANCELED
              /\ (products st = [] \/ length (products st) = 2%nat)))
  | [after_sleep_1] =>
      products st = []
      /\ ((status st = ACTIVITY_PENDING /\ timeEnd st = None)
          \/ (status st = ACTIVITY_CANCELED /\ timeEnd st <> None))
  | [after_sleep_2] =>
      products st = []
      /\ (status st = ACTIVITY_IN_PROGRESS
          \/ (status st = ACTIVITY_CANCELED /\ timeEnd st <> None))
  | _ => False
  end.

Definition inv (s : State) : Prop :=
  forall id,
    match _activities s !! id with
    | None => run_pcs (tasks s) id = []
    | Some st =>
        activityId st = id
        /\ (exists n, id = format_activity_id n /\ (n < _next_activity_num s)%N)
        /\ record_inv (run_pcs (tasks s) id) st
    end.

(** ** Vocabulary of the further properties *)

(** The subscriber of [/events] pulls [n] times. *)
Fixpoint drain_events (n : nat) (s : State) : list Envelope * State :=
  match n with
  | O => ([], s)
  | S n' =>
      match events_next s with
      | (Some evt, s') => let '(l, s'') := drain_events n' s' in (evt :: l, s'')
      | (None, s') => drain_events n' s'
      end
  end.




Definition is_lower_hex (c : ascii) : bool :=
  Py.is_digit c || ((97 <=? nat_of_ascii c)%nat && (nat_of_ascii c <=? 102)%nat).

Fixpoint all_lower_hex (s : string) : bool :=
  match s with
  | EmptyString => true
  | String c r => is_lower_hex c && all_lower_hex r
  end.

(** The textual form 8-4-4-4-12 of a UUID. *)
Definition uuid_shape (s : string) : bool :=
  (String.length s =? 36)%nat
  && all_lower_hex (Py.substr 0 8 s) && String.eqb (Py.substr 8 9 s) "-"
  && all_lower_hex (Py.substr 9 13 s) && String.eqb (Py.substr 13 14 s) "-"
  && all_lower_hex (Py.substr 14 18 s) && String.eqb (Py.substr 18 19 s) "-"
  && all_lower_hex (Py.substr 19 23 s) && String.eqb (Py.substr 23 24 s) "-"
  && all_lower_hex (Py.substr 24 36 s).

Fixpoint no_char (c : ascii) (s : string) : bool :=
  match s with
  | EmptyString => true
  | String d r => negb (Ascii.eqb c d) && no_char c r
  end.

(** An envelope as the two producers build it: a completion, or a status
    change that names a registered activity. *)
Definition known_envelope (s : State) (evt : Envelope) : Prop :=
  eventName evt = "InstrumentActionCompletion"
  \/ (eventName evt = "InstrumentActivityStatusChange"
      /\ exists id, eventData evt !! "activityId" = Some (VStr id)
                    /\ is_Some (_activities s !! id)).

(** Status messages are never empty strings. *)
Definition statusMsg_nonempty (s : State) : Prop :=
  forall id st m, _activities s !! id = Some st -> statusMsg st = Some m -> m <> "".

(** The edges a registered record can move along in one step of the
    process: none, a cancel request, the first timed step, and the two
    ends of the second timed step. *)
Inductive record_step (st st' : ActivityState) : Prop :=
| rs_same : st' = st -> record_step st st'
| rs_cancel t m :
    m <> "" ->
    st' = set_statusMsg m (set_timeEnd t (set_status ACTIVITY_CANCELED st)) ->
    record_step st st'
| rs_in_progress :
    st' = set_status ACTIVITY_IN_PROGRESS st -> record_step st st'
| rs_deadline t :
    products st = [] ->
    st' = set_timeEnd t (set_statusMsg "Deadline exceeded" (set_status ACTIVITY_CANCELED st)) ->
    record_step st st'
| rs_completed t p :
    products st = [] -> length p = 2%nat ->
    st' = set_products p (set_timeEnd t (set_status ACTIVITY_COMPLETED st)) ->
    record_step st st'.

(** The last envelope of the queue announces the status of record [id]. *)
Definition announces (s : State) (id : string) (st : ActivityState) : Prop :=
  exists q evt,
    _event_queue s = q ++ [evt]
    /\ eventName evt = "InstrumentActivityStatusChange"
    /\ eventData evt !! "activityId" = Some (VStr id)
    /\ eventData evt !! "activityStatus" = Some (VStr (status st)).

(** ** Activity ids: the format and its inverse *)

Lemma substring_all (s : string) : String.substring 0 (String.length s) s = s.
Proof. induction s as [|c r IH]; simpl; [done |]. by rewrite IH. Qed.

Lemma strip_prefix_act (d : string) : strip_prefix "act_" ("act_" +:+ d) = Some d.
Proof.
  unfold strip_prefix. simpl. change ("" +:+ d) with d.
  rewrite Nat.sub_0_r, substring_all. by destruct d.
Qed.

Lemma length_append (a b : string) :
  String.length (a +:+ b) = (String.length a + String.length b)%nat.
Proof. induction a as [|c r IH]; simpl; [done |]. by rewrite IH. Qed.








(** Leading zeros do not change the number read back. *)
Lemma uint_of_string_zeros (k : nat) (s : string) (d : Decimal.uint) :
  NilEmpty.uint_of_string s = Some d ->
  exists d', NilEmpty.uint_of_string (Py.zeros k +:+ s) = Some d'
             /\ N.of_uint d' = N.of_uint d.
Proof.
  intros Hs. induction k as [|k [d' [Hd' Hn]]]; simpl.
  - by exists d.
  - exists (Decimal.D0 d'). rewrite Hd'. split; [done | exact Hn].
Qed.

Lemma NilZero_uint_of_string_nonempty (s : string) :
  s <> EmptyString -> NilZero.uint_of_string s = NilEmpty.uint_of_string s.
Proof. by destruct s. Qed.

Lemma decimal_nonempty (d : Decimal.uint) : NilZero.string_of_uint d <> EmptyString.
Proof. by destruct d. Qed.

Lemma append_nonempty_r (a b : string) : b <> EmptyString -> a +:+ b <> EmptyString.
Proof. destruct a; simpl; [done | discriminate]. Qed.

Lemma parse_format_04d (n : N) :
  N.of_uint <$> NilZero.uint_of_string (Py.format_04d n) = Some n.
Proof.
  unfold Py.format_04d, Py.zfill.
  set (u := N.to_uint n).
  rewrite NilZero_uint_of_string_nonempty
    by apply append_nonempty_r, decimal_nonempty.
  assert (exists d, NilEmpty.uint_of_string (NilZero.string_of_uint u) = Some d
                    /\ N.of_uint d = n) as [d [Hd Hn]].
  { rewrite <- NilZero_uint_of_string_nonempty by apply decimal_nonempty.
    destruct (NilZero.usu_gen u) as [E | E]; rewrite E.
    - exists u. split; [done | apply Unsigned.of_to].
    - exists Decimal.zero. split; [done |].
      assert (Hu : NilZero.string_of_uint u = "0").
      { symmetry. exact (NilZero.sus _ _ E). }
      assert (Hz : u = Decimal.Nil \/ u = Decimal.zero).
      { destruct u as [|u'| | | | | | | | |]; simpl in Hu; try discriminate; auto.
        destruct u'; simpl in Hu; try discriminate. by right. }
      rewrite <- (Unsigned.of_to n). fold u. by destruct Hz as [-> | ->]. }
  destruct (uint_of_string_zeros (4 - String.length (NilZero.string_of_uint u)) _ _ Hd)
    as [d' [Hd' Hn']].
  rewrite Hd'. simpl. by rewrite Hn', Hn.
Qed.

Lemma activity_number_format (n : N) :
  activity_number (format_activity_id n) = Some n.
Proof.
  unfold activity_number, format_activity_id. rewrite strip_prefix_act. simpl.
  apply parse_format_04d.
Qed.

Lemma format_activity_id_inj (n m : N) :
  format_activity_id n = format_activity_id m -> n = m.
Proof.
  intros E. apply (f_equal activity_number) in E.
  rewrite !activity_number_format in E. by injection E.
Qed.


(** ** The task set under wake-ups *)

Lemma run_pcs_app (l1 l2 : list Task) (id : string) :
  run_pcs (l1 ++ l2) id = run_pcs l1 id ++ run_pcs l2 id.
Proof. apply omap_app. Qed.

Lemma run_pcs_run_same (id : string) (pc : run_point) :
  run_pcs [Task_run id pc] id = [pc].
Proof. unfold run_pcs. simpl. by rewrite decide_True. Qed.

Lemma run_pcs_run_other (i id : string) (pc : run_point) :
  i <> id -> run_pcs [Task_run i pc] id = [].
Proof. intros Hne. unfold run_pcs. simpl. by rewrite decide_False. Qed.

Lemma split_at (l : list Task) (k : nat) (t : Task) :
  l !! k = Some t -> l = take k l ++ [t] ++ drop (S k) l.
Proof. intros Hk. symmetry. by apply take_drop_middle. Qed.

Lemma delete_at (l : list Task) (k : nat) :
  delete k l = take k l ++ drop (S k) l.
Proof. apply delete_take_drop. Qed.

Lemma insert_at (l : list Task) (k : nat) (t t' : Task) :
  l !! k = Some t -> <[k := t']> l = take k l ++ [t'] ++ drop (S k) l.
Proof. intros Hk. apply insert_take_drop. by eapply lookup_lt_Some. Qed.

(** Removing or rewriting a task leaves the tasks of other records alone. *)
Lemma run_pcs_delete_other (l : list Task) (k : nat) (t : Task) (id : string) :
  l !! k = Some t -> run_pcs [t] id = [] -> run_pcs (delete k l) id = run_pcs l id.
Proof.
  intros Hk Ht. rewrite delete_at. rewrite (split_at l k t Hk) at 3.
  by rewrite !run_pcs_app, Ht.
Qed.

Lemma run_pcs_insert_other (l : list Task) (k : nat) (t t' : Task) (id : string) :
  l !! k = Some t -> run_pcs [t] id = [] -> run_pcs [t'] id = [] ->
  run_pcs (<[k := t']> l) id = run_pcs l id.
Proof.
  intros Hk Ht Ht'. rewrite (insert_at l k t t' Hk). rewrite (split_at l k t Hk) at 3.
  by rewrite !run_pcs_app, Ht, Ht'.
Qed.

(** A record with at most one task: the task found at [k] is that one. *)
Lemma run_pcs_single (l : list Task) (k : nat) (id : string) (pc : run_point) :
  l !! k = Some (Task_run id pc) -> (length (run_pcs l id) <= 1)%nat ->
  run_pcs l id = [pc] /\ run_pcs (take k l) id = [] /\ run_pcs (drop (S k) l) id = [].
Proof.
  intros Hk Hlen. rewrite (split_at l k _ Hk) in Hlen |- * at 1.
  rewrite !run_pcs_app, run_pcs_run_same in Hlen |- *.
  rewrite !length_app in Hlen. simpl in Hlen.
  destruct (run_pcs (take k l) id), (run_pcs (drop (S k) l) id);
    simpl in Hlen; try lia. done.
Qed.

Lemma run_pcs_delete_self (l : list Task) (k : nat) (id : string) (pc : run_point) :
  l !! k = Some (Task_run id pc) -> (length (run_pcs l id) <= 1)%nat ->
  run_pcs (delete k l) id = [].
Proof.
  intros Hk Hlen. destruct (run_pcs_single l k id pc Hk Hlen) as (_ & H1 & H2).
  by rewrite delete_at, run_pcs_app, H1, H2.
Qed.

Lemma run_pcs_insert_self (l : list Task) (k : nat) (id : string) (pc pc' : run_point) :
  l !! k = Some (Task_run id pc) -> (length (run_pcs l id) <= 1)%nat ->
  run_pcs (<[k := Task_run id pc']> l) id = [pc'].
Proof.
  intros Hk Hlen. destruct (run_pcs_single l k id pc Hk Hlen) as (_ & H1 & H2).
  by rewrite (insert_at l k _ _ Hk), !run_pcs_app, H1, H2, run_pcs_run_same.
Qed.

Lemma run_pcs_elem (l : list Task) (k : nat) (id : string) (pc : run_point) :
  l !! k = Some (Task_run id pc) -> run_pcs l id <> [].
Proof.
  intros Hk E. rewrite (split_at l k _ Hk), !run_pcs_app, run_pcs_run_same in E.
  by destruct (run_pcs (take k l) id).
Qed.

Lemma record_inv_length (pcs : list run_point) (st : ActivityState) :
  record_inv pcs st -> (length pcs <= 1)%nat.
Proof.
  destruct pcs as [|pc [|pc' pcs]]; simpl; try lia.
  destruct pc; tauto.
Qed.

(** ** The invariant holds in every reachable state *)

Lemma inv_init : inv init.
Proof. intros id. simpl. by rewrite lookup_empty. Qed.

Lemma inv_emit (n : string) (d : gmap string jvalue) (s : State) :
  inv s -> inv (emit n d s).
Proof. intros Hs. exact Hs. Qed.

Lemma inv_with_queue (q : list Envelope) (s : State) : inv s -> inv (with_queue q s).
Proof. intros Hs. exact Hs. Qed.

Lemma inv_next (s : State) : inv s -> inv (with_next (_next_activity_num s + 1) s).
Proof.
  intros Hs id. specialize (Hs id). simpl.
  destruct (_activities s !! id) as [st|]; [|done].
  destruct Hs as (Hid & (n & Hn & Hlt) & Hr). split; [done|]. split; [|done].
  exists n. split; [done | lia].
Qed.

Lemma inv_fresh (s : State) : inv s -> _activities s !! format_activity_id (_next_activity_num s) = None.
Proof.
  intros Hs. specialize (Hs (format_activity_id (_next_activity_num s))).
  destruct (_activities s !! _) as [st|]; [|done].
  destruct Hs as (_ & (n & Hn & Hlt) & _).
  apply format_activity_id_inj in Hn. lia.
Qed.

Lemma inv_perform_action E cmd s : inv s -> inv (perform_action E cmd s).2.
Proof.
  intros Hs id. specialize (Hs id). simpl.
  rewrite run_pcs_app. change (run_pcs [Task_complete _ _] id) with (@nil run_point).
  by rewrite app_nil_r.
Qed.

Lemma inv_complete E cmd t s : inv s -> inv (complete E cmd t s).
Proof.
  intros Hs. unfold complete.
  destruct (String.eqb _ _); apply inv_emit, Hs.
Qed.

Lemma inv_start_activity E req s : inv s -> inv (start_activity E req s).2.
Proof.
  intros Hs. unfold start_activity.
  destruct (negb _); [exact Hs|].
  destruct (parse_deadline req) as [e|dl]; [apply inv_next, Hs|].
  pose proof (inv_fresh s Hs) as Hfresh.
  intros id. simpl.
  destruct (decide (format_activity_id (_next_activity_num s) = id)) as [<-|Hne].
  - rewrite lookup_insert_eq. simpl. split; [done|]. split.
    + eexists. split; [done | lia].
    + pose proof (Hs (format_activity_id (_next_activity_num s))) as Hid.
      rewrite Hfresh in Hid. rewrite run_pcs_app, Hid, run_pcs_run_same. simpl. auto.
  - rewrite lookup_insert_ne by done.
    rewrite run_pcs_app, run_pcs_run_other, app_nil_r by done.
    apply (inv_next s Hs id).
Qed.

Lemma record_inv_cancel pcs st t m :
  record_inv pcs st ->
  record_inv pcs (set_statusMsg m (set_timeEnd t (set_status ACTIVITY_CANCELED st))).
Proof.
  destruct pcs as [|[] [|? ?]]; simpl; try tauto.
  - intros (_ & [[_ Hp] | [_ Hp]]); split; try done; right; split; auto.
  - intros (Hp & _). split; [done|]. right. done.
  - intros (Hp & _). split; [done|]. right. done.
Qed.

Lemma inv_cancel_activity E cmd s : inv s -> inv (cancel_activity E cmd s).2.
Proof.
  intros Hs. unfold cancel_activity.
  destruct (_activities s !! cancel_activityId cmd) as [st|] eqn:Hst; [|exact Hs].
  intros id. simpl.
  destruct (decide (cancel_activityId cmd = id)) as [<-|Hne].
  - rewrite lookup_insert_eq. specialize (Hs (cancel_activityId cmd)).
    rewrite Hst in Hs. destruct Hs as (Hid & Hn & Hr).
    split; [done|]. split; [done|]. by apply record_inv_cancel.
  - rewrite lookup_insert_ne by done. apply (Hs id).
Qed.

(** A [run] task always finds its record. *)
Lemma inv_tasks_registered (s : State) (k : nat) (id : string) (pc : run_point) :
  inv s -> tasks s !! k = Some (Task_run id pc) ->
  exists st, _activities s !! id = Some st
             /\ activityId st = id
             /\ run_pcs (tasks s) id = [pc]
             /\ record_inv [pc] st.
Proof.
  intros Hs Hk. specialize (Hs id).
  destruct (_activities s !! id) as [st|].
  - destruct Hs as (Hid & _ & Hr). exists st.
    destruct (run_pcs_single _ _ _ _ Hk (record_inv_length _ _ Hr)) as (Hpcs & _).
    rewrite Hpcs in Hr. done.
  - by apply run_pcs_elem in Hk.
Qed.

Lemma inv_wake E k s : inv s -> inv (wake E k s).
Proof.
  intros Hs. unfold wake.
  destruct (tasks s !! k) as [[cmd t | i pc]|] eqn:Hk; [| |exact Hs].
  - apply inv_complete. intros id. specialize (Hs id). simpl.
    by rewrite (run_pcs_delete_other _ _ _ _ Hk).
  - destruct (inv_tasks_registered s k i pc Hs Hk) as (st & Hst & Hid & Hpcs & Hr).
    assert (Hlen : (length (run_pcs (tasks s) i) <= 1)%nat) by (rewrite Hpcs; simpl; lia).
    destruct pc.
    + unfold run_1. simpl. rewrite Hst. intros id. simpl.
      destruct (decide (i = id)) as [<-|Hne].
      * rewrite lookup_insert_eq. simpl.
        rewrite (run_pcs_insert_self _ _ _ _ _ Hk Hlen).
        specialize (Hs i). rewrite Hst in Hs. destruct Hs as (_ & Hn & _).
        split; [done|]. split; [done|]. simpl in Hr |- *.
        destruct Hr as (Hp & _). split; [done|]. by left.
      * rewrite lookup_insert_ne by done.
        rewrite (run_pcs_insert_other _ _ _ _ _ Hk) by (by apply run_pcs_run_other).
        apply (Hs id).
    + unfold run_2. simpl. rewrite Hst.
      assert (Hother : forall id, i <> id ->
                match _activities s !! id with
                | Some st0 =>
                    activityId st0 = id
                    /\ (exists n, id = format_activity_id n /\ (n < _next_activity_num s)%N)
                    /\ record_inv (run_pcs (delete k (tasks s)) id) st0
                | None => run_pcs (delete k (tasks s)) id = []
                end).
      { intros id Hne.
        rewrite (run_pcs_delete_other _ _ _ _ Hk) by (by apply run_pcs_run_other).
        apply (Hs id). }
      specialize (Hs i). rewrite Hst in Hs. destruct Hs as (_ & Hn & _).
      simpl in Hr. destruct Hr as (Hp & _).
      destruct (match deadline st with Some d => _ | None => false end);
        intros id; simpl;
        (destruct (decide (i = id)) as [<-|Hne];
         [ rewrite lookup_insert_eq; simpl;
           rewrite (run_pcs_delete_self _ _ _ _ Hk Hlen); simpl
         | rewrite lookup_insert_ne by done; by apply Hother ]).
      * split; [done|]. split; [done|]. split; [done|]. right. split; [done|]. by left.
      * split; [done|]. split; [done|]. split; [done|]. left. done.
Qed.

Lemma inv_step E i s : inv s -> inv (step E i s).2.
Proof.
  intros Hs. destruct i; unfold step; try exact Hs.
  - destruct (valid_PerformActionCmd cmd); [|exact Hs].
    pose proof (inv_perform_action E cmd s Hs) as Hp.
    by destruct (perform_action E cmd s).
  - destruct (valid_StartActivityReq req); [|exact Hs].
    pose proof (inv_start_activity E req s Hs) as Hp.
    by destruct (start_activity E req s).
  - destruct (valid_CancelActivityCmd cmd); [|exact Hs].
    pose proof (inv_cancel_activity E cmd s Hs) as Hp.
    by destruct (cancel_activity E cmd s).
  - unfold events_next. destruct (_event_queue s); [exact Hs|]. by apply inv_with_queue.
  - by apply inv_wake.
Qed.

Lemma reachable_inv (s : State) : reachable s -> inv s.
Proof. induction 1 as [|E i s _ IH]; [apply inv_init | by apply inv_step]. Qed.

Lemma exec_step E i tr s :
  exec ((E, i) :: tr) s = ((step E i s).1 :: (exec tr (step E i s).2).1,
                           (exec tr (step E i s).2).2).
Proof. simpl. destruct (step E i s) as [r s']. simpl. by destruct (exec tr s'). Qed.

Lemma reachable_exec (tr : list (Env * Input)) (s : State) :
  reachable s -> reachable (exec tr s).2.
Proof.
  revert s. induction tr as [|[E i] tr IH]; intros s Hs; [exact Hs|].
  rewrite exec_step. simpl. apply IH. by constructor.
Qed.

(** ** Case-insensitive comparison and [upper] *)





(** ** Rendering of product identifiers *)



Lemma length_hex (k : nat) (n : Z) : String.length (Py.hex k n) = k.
Proof.
  revert n. induction k as [|k IH]; intros n; simpl; [done|].
  rewrite length_append, IH. simpl. lia.
Qed.




(** ** Actions *)


(** ** Cancellation and the data query *)

(** C5. A cancel request for an id that is not registered raises HTTP
    404 and leaves the whole state as it was.  For a registered id,
    whatever the record's current status, the handler sets the status to
    CANCELED, stamps [timeEnd], stores the reason as [statusMsg], leaves
    every other record and the task set alone, and appends one
    [InstrumentActivityStatusChange] envelope that carries the reason. *)
Theorem cancel_activity_forces_canceled (E : Env) (cmd : CancelActivityCmd) (s : State) :
  match _activities s !! cancel_activityId cmd with
  | None => cancel_activity E cmd s = (HTTPException 404 "Unknown activityId", s)
  | Some st =>
      let s' := (cancel_activity E cmd s).2 in
      (cancel_activity E cmd s).1 = JSON 202 {[ "accepted" := VBool true ]}
      /\ (exists st',
            _activities s' !! cancel_activityId cmd = Some st'
            /\ status st' = ACTIVITY_CANCELED
            /\ timeEnd st' = Some (now_ts (now E 0))
            /\ statusMsg st' = Some (cancel_reason cmd)
            /\ (activityId st', activityName st', timeBegin st', products st', deadline st')
               = (activityId st, activityName st, timeBegin st, products st, deadline st))
      /\ (forall id, id <> cancel_activityId cmd -> _activities s' !! id = _activities s !! id)
      /\ tasks s' = tasks s
      /\ _next_activity_num s' = _next_activity_num s
      /\ exists evt,
           _event_queue s' = _event_queue s ++ [evt]
           /\ eventName evt = "InstrumentActivityStatusChange"
           /\ eventData evt !! "activityId" = Some (VStr (activityId st))
           /\ eventData evt !! "activityName" = Some (VStr (activityName st))
           /\ eventData evt !! "activityStatus" = Some (VStr ACTIVITY_CANCELED)
           /\ eventData evt !! "statusMsg" = Some (VStr (cancel_reason cmd))
  end.
Proof.
  unfold cancel_activity.
  destruct (_activities s !! cancel_activityId cmd) as [st|] eqn:Hst; [|done].
  cbn zeta. split; [done|]. split.
  - eexists. simpl. rewrite lookup_insert_eq. split; [reflexivity|]. done.
  - split.
    + intros id Hne. simpl. by rewrite lookup_insert_ne.
    + repeat (split; [done|]). eexists. split; [reflexivity|]. done.
Qed.

(** C9. The data query raises HTTP 404 for an id that is not
    registered; for a registered record that is not COMPLETED it answers
    an empty product list with [errorMsg] "Data not ready"; for a
    COMPLETED record it answers the record's own products and no
    [errorMsg].  The query changes nothing. *)
Theorem get_activity_data_cases (E : Env) (activity_id : string) (s : State) :
  step E (GET_activity_data activity_id) s = (Some (get_activity_data activity_id s), s)
  /\ match _activities s !! activity_id with
     | None => get_activity_data activity_id s = HTTPException 404 "Unknown activityId"
     | Some st =>
         if decide (status st = ACTIVITY_COMPLETED)
         then exists body,
                get_activity_data activity_id s = JSON 200 body
                /\ body !! "products" = Some (VList (products st))
                /\ body !! "errorMsg" = None
         else exists body,
                get_activity_data activity_id s = JSON 200 body
                /\ body !! "products" = Some (VList [])
                /\ body !! "errorMsg" = Some (VStr "Data not ready")
     end.
Proof.
  split; [done|]. unfold get_activity_data.
  destruct (_activities s !! activity_id) as [st|]; [|done].
  destruct (decide (status st = ACTIVITY_COMPLETED)) as [Hc|Hc].
  - rewrite Hc. simpl. eexists. split; [reflexivity|]. done.
  - apply String.eqb_neq in Hc. rewrite Hc. simpl.
    eexists. split; [reflexivity|]. done.
Qed.

(** ** Starting activities *)

Lemma inv_no_empty_key (s : State) : inv s -> _activities s !! "" = None.
Proof.
  intros Hs. specialize (Hs ""). destruct (_activities s !! "") as [st|]; [|done].
  destruct Hs as (_ & (n & Hn & _) & _). discriminate Hn.
Qed.

(** C4. A start request whose name is not a known activity is answered
    at once with an empty [activityId] and a non-empty [errorMsg]; the
    state is untouched, so nothing is registered and no task is
    scheduled, and the status query for the returned id stays not-found
    whatever happens later. *)
Theorem start_activity_unknown_name (E : Env) (req : StartActivityReq) (s : State)
    (Hname : req_activityName req ∉ ACTIVITIES) :
  start_activity E req s
  = (JSON 200 {[ "activityId" := VStr "";
                 "errorMsg" := VStr ("Unknown activityName: " +:+ req_activityName req) ]},
     s)
  /\ "Unknown activityName: " +:+ req_activityName req <> ""
  /\ (step E (POST_activities_start req) s).2 = s
  /\ (reachable s ->
      forall tr, get_activity_status "" (exec tr s).2 = HTTPException 404 "Unknown activityId").
Proof.
  assert (Hs : start_activity E req s
               = (JSON 200 {[ "activityId" := VStr "";
                   "errorMsg" := VStr ("Unknown activityName: " +:+ req_activityName req) ]}, s)).
  { unfold start_activity. by rewrite bool_decide_eq_false_2. }
  split; [exact Hs|]. split; [discriminate|]. split.
  - unfold step. rewrite Hs. by destruct (valid_StartActivityReq req).
  - intros Hr tr. unfold get_activity_status.
    by rewrite (inv_no_empty_key _ (reachable_inv _ (reachable_exec tr s Hr))).
Qed.

(** ** The ids handed out over a run *)

Lemma next_wake E k s : _next_activity_num (wake E k s) = _next_activity_num s.
Proof.
  unfold wake. destruct (tasks s !! k) as [[cmd t|i []]|]; try done.
  - unfold complete. by destruct (String.eqb _ _).
  - unfold run_1. simpl. by destruct (_activities s !! i).
  - unfold run_2. simpl. destruct (_activities s !! i) as [st|]; [|done].
    by destruct (match deadline st with Some d => _ | None => false end).
Qed.

(** What a start call that reaches the handler answers and does to the
    counter, by its three outcomes. *)
Lemma start_activity_cases E req s :
  let r := (start_activity E req s).1 in
  let s' := (start_activity E req s).2 in
  ((req_activityName req ∉ ACTIVITIES)
   /\ started_id (POST_activities_start req, Some r) = None /\ s' = s)
  \/ ((req_activityName req ∈ ACTIVITIES) /\ (exists e, parse_deadline req = inl e)
      /\ started_id (POST_activities_start req, Some r) = None
      /\ _next_activity_num s' = (_next_activity_num s + 1)%N)
  \/ ((req_activityName req ∈ ACTIVITIES) /\ (exists dl, parse_deadline req = inr dl)
      /\ r = JSON 200 {[ "activityId" := VStr (format_activity_id (_next_activity_num s)) ]}
      /\ started_id (POST_activities_start req, Some r)
         = Some (format_activity_id (_next_activity_num s))
      /\ _next_activity_num s' = (_next_activity_num s + 1)%N).
Proof.
  unfold start_activity.
  destruct (decide (req_activityName req ∈ ACTIVITIES)) as [Hin|Hin].
  - rewrite bool_decide_eq_true_2 by done. simpl.
    destruct (parse_deadline req) as [e|dl]; simpl.
    + right. left. eauto.
    + right. right. split; [done|]. split; [eauto|]. done.
  - rewrite bool_decide_eq_false_2 by done. simpl. by left.
Qed.

Lemma step_next_mono E i s :
  (_next_activity_num s <= _next_activity_num (step E i s).2)%N.
Proof.
  destruct i; unfold step; simpl; try lia.
  - destruct (valid_PerformActionCmd cmd); simpl; lia.
  - destruct (valid_StartActivityReq req); simpl; [|lia].
    destruct (start_activity_cases E req s) as [(_ & _ & Hs) | [(_ & _ & _ & Hs) | (_ & _ & _ & _ & Hs)]];
      destruct (start_activity E req s) as [r s']; simpl in *; try rewrite Hs; lia.
  - destruct (valid_CancelActivityCmd cmd); simpl; [|lia].
    unfold cancel_activity. destruct (_activities s !! _); simpl; lia.
  - unfold events_next. destruct (_event_queue s); simpl; lia.
  - rewrite next_wake. lia.
Qed.

Lemma step_started_id E i s id :
  started_id (i, (step E i s).1) = Some id ->
  id = format_activity_id (_next_activity_num s)
  /\ _next_activity_num (step E i s).2 = (_next_activity_num s + 1)%N.
Proof.
  destruct i; try discriminate. unfold step.
  destruct (valid_StartActivityReq req); [|discriminate].
  destruct (start_activity_cases E req s) as [(_ & Hn & _) | [(_ & _ & Hn & _) | (_ & _ & _ & Hn & Hs)]];
    destruct (start_activity E req s) as [r s']; simpl in *; rewrite Hn; try discriminate.
  intros [= <-]. done.
Qed.

Lemma started_ids_cons E i tr s :
  started_ids ((E, i) :: tr) s
  = match started_id (i, (step E i s).1) with
    | Some id => id :: started_ids tr (step E i s).2
    | None => started_ids tr (step E i s).2
    end.
Proof. unfold started_ids. rewrite exec_step. simpl.
  by destruct (started_id (i, (step E i s).1)). Qed.

(** The ids of a run are the renderings of an increasing list of counter
    values, none below the counter the run starts from. *)
Lemma started_ids_numbers (tr : list (Env * Input)) (s : State) :
  exists nums,
    started_ids tr s = map format_activity_id nums
    /\ Forall (fun n => (_next_activity_num s <= n)%N) nums
    /\ StronglySorted N.lt nums.
Proof.
  revert s. induction tr as [|[E i] tr IH]; intros s.
  - exists []. repeat split; constructor.
  - rewrite started_ids_cons.
    destruct (IH (step E i s).2) as (nums & Hids & Hge & Hsorted).
    destruct (started_id (i, (step E i s).1)) as [id|] eqn:Hid.
    + apply step_started_id in Hid as [-> Hnext]. rewrite Hnext in Hge.
      exists (_next_activity_num s :: nums). split; [by rewrite Hids|]. split.
      * constructor; [lia|]. eapply Forall_impl; [exact Hge|]. simpl. lia.
      * constructor; [done|]. eapply Forall_impl; [exact Hge|]. simpl. lia.
    + exists nums. split; [done|]. split; [|done].
      eapply Forall_impl; [exact Hge|]. simpl.
      pose proof (step_next_mono E i s). lia.
Qed.


(** C10. A start request with a known name whose deadline string does
    not parse is answered with an empty [activityId] and an error
    message, and registers, schedules and publishes nothing; yet the
    counter has moved on.  The number it held is never handed out
    afterwards: the next successful start skips it, so successive ids
    need not be consecutive. *)
Theorem start_activity_bad_deadline_consumes_id
    (E : Env) (req : StartActivityReq) (s : State) (d e : string)
    (Hname : req_activityName req ∈ ACTIVITIES)
    (Hd : req_activityDeadline req = Some d) (Hne : d <> "")
    (He : isoparse d = inl e) :
  start_activity E req s
  = (JSON 200 {[ "activityId" := VStr "";
                 "errorMsg" := VStr ("Invalid activityDeadline: " +:+ e) ]},
     with_next (_next_activity_num s + 1) s)
  /\ (forall E' req' dl,
        req_activityName req' ∈ ACTIVITIES -> parse_deadline req' = inr dl ->
        (start_activity E' req' s).1
        = JSON 200 {[ "activityId" := VStr (format_activity_id (_next_activity_num s)) ]}
        /\ (start_activity E' req' (start_activity E req s).2).1
           = JSON 200 {[ "activityId" := VStr (format_activity_id (_next_activity_num s + 1)) ]})
  /\ forall tr,
       format_activity_id (_next_activity_num s)
       ∉ started_ids tr (start_activity E req s).2.
Proof.
  assert (Hp : parse_deadline req = inl e).
  { unfold parse_deadline. rewrite Hd. destruct d; [done|]. simpl. by rewrite He. }
  assert (Hs : start_activity E req s
               = (JSON 200 {[ "activityId" := VStr "";
                    "errorMsg" := VStr ("Invalid activityDeadline: " +:+ e) ]},
                  with_next (_next_activity_num s + 1) s)).
  { unfold start_activity. rewrite bool_decide_eq_true_2 by done. simpl. by rewrite Hp. }
  split; [exact Hs|]. rewrite Hs. simpl. split.
  - intros E' req' dl Hin' Hp'. unfold start_activity.
    rewrite bool_decide_eq_true_2 by done. simpl. by rewrite Hp'.
  - intros tr Hin.
    destruct (started_ids_numbers tr (with_next (_next_activity_num s + 1) s))
      as (nums & Hids & Hge & _).
    rewrite Hids in Hin. apply list_elem_of_fmap in Hin as (m & Hm & Hin).
    apply format_activity_id_inj in Hm. subst m.
    rewrite Forall_forall in Hge. specialize (Hge _ Hin). simpl in Hge. lia.
Qed.

(** ** The second timed step *)


(** ** Records over the whole lifetime *)

(** C2, as the code has it.  A COMPLETED record holds exactly two
    products; a record that holds products is COMPLETED, or CANCELED by
    a cancel request that came after its completion, and its [run] task
    has ended. *)
Theorem products_and_status (s : State) (id : string) (st : ActivityState)
    (Hreach : reachable s) (Hst : _activities s !! id = Some st) :
  (status st = ACTIVITY_COMPLETED -> length (products st) = 2%nat)
  /\ (products st <> [] ->
      length (products st) = 2%nat
      /\ (status st = ACTIVITY_COMPLETED \/ status st = ACTIVITY_CANCELED)
      /\ run_pcs (tasks s) id = []).
Proof.
  pose proof (reachable_inv s Hreach id) as Hi. rewrite Hst in Hi.
  destruct Hi as (_ & _ & Hr).
  destruct (run_pcs (tasks s) id) as [|[] [|? ?]]; simpl in Hr; try done.
  - destruct Hr as (_ & [[Hc Hp] | [Hc [Hp | Hp]]]); split; intros Hx; try done;
      try (rewrite Hc in Hx; discriminate Hx); auto.
  - destruct Hr as (Hp & [[Hc _] | [Hc _]]); split; intros Hx; try done;
      rewrite Hc in Hx; discriminate Hx.
  - destruct Hr as (Hp & [Hc | [Hc _]]); split; intros Hx; try done;
      rewrite Hc in Hx; discriminate Hx.
Qed.


(** ** Terminal records *)

(** One step on a record whose [run] task has ended: the record stays,
    no task for it appears, and its status changes only by a cancel
    request for it. *)
Lemma step_ended_record (E : Env) (i : Input) (s : State) (id : string)
    (st : ActivityState) :
  inv s -> _activities s !! id = Some st -> run_pcs (tasks s) id = [] ->
  exists st',
    _activities (step E i s).2 !! id = Some st'
    /\ run_pcs (tasks (step E i s).2) id = []
    /\ (status st' = status st
        \/ (status st' = ACTIVITY_CANCELED
            /\ exists cmd, i = POST_activities_cancel cmd /\ cancel_activityId cmd = id)).
Proof.
  intros Hs Hst Hpcs. destruct i; unfold step; try (exists st; by auto).
  - destruct (valid_PerformActionCmd cmd); [|exists st; by auto].
    exists st. simpl. rewrite run_pcs_app, Hpcs. by auto.
  - destruct (valid_StartActivityReq req); [|exists st; by auto].
    unfold start_activity. destruct (negb _); [exists st; by auto|].
    destruct (parse_deadline req); [exists st; by auto|].
    exists st. simpl.
    assert (Hne : format_activity_id (_next_activity_num s) <> id).
    { intros <-. rewrite (inv_fresh s Hs) in Hst. discriminate Hst. }
    rewrite lookup_insert_ne by done.
    rewrite run_pcs_app, Hpcs, run_pcs_run_other by done. by auto.
  - destruct (valid_CancelActivityCmd cmd); [|exists st; by auto].
    unfold cancel_activity.
    destruct (_activities s !! cancel_activityId cmd) as [st0|] eqn:Hst0;
      [|exists st; by auto].
    simpl. destruct (decide (cancel_activityId cmd = id)) as [Heq|Hne].
    + rewrite Heq, lookup_insert_eq. eexists. split; [done|]. split; [done|].
      right. split; [done|]. by exists cmd.
    + rewrite lookup_insert_ne by done. exists st. by auto.
  - unfold events_next. destruct (_event_queue s); exists st; by auto.
  - unfold wake. destruct (tasks s !! k) as [[cmd t|i pc]|] eqn:Hk;
      [| |exists st; by auto].
    + exists st. unfold complete.
      destruct (String.eqb _ _); simpl;
        rewrite (run_pcs_delete_other _ _ _ _ Hk) by done; by auto.
    + assert (Hne : i <> id).
      { intros ->. by apply run_pcs_elem in Hk. }
      destruct (inv_tasks_registered s k i pc Hs Hk) as (st0 & Hst0 & _).
      exists st. destruct pc.
      * unfold run_1. simpl. rewrite Hst0. simpl.
        rewrite lookup_insert_ne by done.
        rewrite (run_pcs_insert_other _ _ _ _ _ Hk) by (by apply run_pcs_run_other).
        by auto.
      * unfold run_2. simpl. rewrite Hst0.
        destruct (match deadline st0 with Some d => _ | None => false end); simpl;
          rewrite lookup_insert_ne by done;
          rewrite (run_pcs_delete_other _ _ _ _ Hk) by (by apply run_pcs_run_other);
          by auto.
Qed.

Lemma completed_task_ended (s : State) (id : string) (st : ActivityState) :
  inv s -> _activities s !! id = Some st -> status st = ACTIVITY_COMPLETED ->
  run_pcs (tasks s) id = [].
Proof.
  intros Hs Hst Hc. specialize (Hs id). rewrite Hst in Hs. destruct Hs as (_ & _ & Hr).
  destruct (run_pcs (tasks s) id) as [|[] [|? ?]]; simpl in Hr; try done.
  - destruct Hr as (_ & [[Hx _] | [Hx _]]); rewrite Hc in Hx; discriminate Hx.
  - destruct Hr as (_ & [Hx | [Hx _]]); rewrite Hc in Hx; discriminate Hx.
Qed.

(** C1, as the code has it.  Once a record is in a terminal status and
    its [run] task has ended (always so for a COMPLETED record), it stays
    in a terminal status over every later run of the process; its status
    changes only by a cancel request for it, and then to CANCELED.  So a
    COMPLETED record never returns to IN_PROGRESS, and a record that is
    CANCELED with its task ended never becomes COMPLETED. *)
Theorem terminal_status_after_task_end
    (s : State) (id : string) (st : ActivityState) (tr : list (Env * Input))
    (Hreach : reachable s) (Hst : _activities s !! id = Some st)
    (Hterm : terminal (status st))
    (Hended : status st = ACTIVITY_COMPLETED \/ run_pcs (tasks s) id = []) :
  exists st',
    _activities (exec tr s).2 !! id = Some st'
    /\ terminal (status st')
    /\ (status st' = status st
        \/ (status st' = ACTIVITY_CANCELED
            /\ exists E cmd, (E, POST_activities_cancel cmd) ∈ tr
                             /\ cancel_activityId cmd = id)).
Proof.
  assert (Hpcs : run_pcs (tasks s) id = []).
  { destruct Hended as [Hc|Hp]; [|exact Hp].
    by apply (completed_task_ended s id st (reachable_inv s Hreach)). }
  clear Hended. revert s st Hreach Hst Hterm Hpcs.
  induction tr as [|[E i] tr IH]; intros s st Hreach Hst Hterm Hpcs.
  - exists st. simpl. by auto.
  - rewrite exec_step. simpl.
    destruct (step_ended_record E i s id st (reachable_inv s Hreach) Hst Hpcs)
      as (st1 & Hst1 & Hpcs1 & Hstep).
    assert (Hterm1 : terminal (status st1)).
    { destruct Hstep as [-> | [Hc _]]; [done | by right]. }
    destruct (IH (step E i s).2 st1 (reachable_step E i s Hreach) Hst1 Hterm1 Hpcs1)
      as (st' & Hst' & Hterm' & Hlater).
    exists st'. split; [done|]. split; [done|].
    destruct Hlater as [Heq | (Hc & E' & cmd & Hin & Hid)].
    + destruct Hstep as [Heq1 | (Hc1 & cmd & -> & Hid)].
      * left. congruence.
      * right. split; [congruence|]. exists E, cmd. split; [left|done].
    + right. split; [done|]. exists E', cmd. split; [by right|done].
Qed.


(** ** Further properties of the handlers *)

(** X1. A start request with a known name and a deadline that is absent
    or parses, made in a reachable state, takes the id rendered from the
    counter, which is not yet registered; it registers a PENDING record
    without [timeEnd], [statusMsg] or products, publishes the PENDING
    status, leaves one [run] task in its first sleep and moves the
    counter by one. *)
Theorem start_activity_registers_pending
    (E : Env) (req : StartActivityReq) (s : State) (dl : option datetime)
    (Hreach : reachable s)
    (Hname : req_activityName req ∈ ACTIVITIES)
    (Hdl : parse_deadline req = inr dl) :
  let id := format_activity_id (_next_activity_num s) in
  let st := {| activityId := id; activityName := req_activityName req;
               status := ACTIVITY_PENDING; timeBegin := now_ts (now E 0);
               timeEnd := None; statusMsg := None; products := [];
               deadline := dl |} in
  _activities s !! id = None
  /\ start_activity E req s
     = (JSON 200 {[ "activityId" := VStr id ]},
        {| _event_queue :=
             _event_queue s
             ++ [{| eventName := "InstrumentActivityStatusChange";
                    eventData := {[ "activityId" := VStr id;
                                    "activityName" := VStr (req_activityName req);
                                    "activityStatus" := VStr ACTIVITY_PENDING ]} |}];
           _activities := <[id := st]> (_activities s);
           _next_activity_num := (_next_activity_num s + 1)%N;
           tasks := tasks s ++ [Task_run id after_sleep_1] |}).
Proof.
  intros id st. split; [apply inv_fresh, reachable_inv, Hreach|].
  unfold start_activity. rewrite bool_decide_eq_true_2 by done. simpl.
  by rewrite Hdl.
Qed.

(** X2. The first timed step of a [run] task rewrites the status of its
    record to IN_PROGRESS whatever the status was, a cancellation
    included, touches no other field, publishes the new status, and
    leaves the task waiting in its second sleep. *)
Theorem run_first_step_outcome (E : Env) (k : nat) (s : State) (id : string)
    (Hreach : reachable s) (Hk : tasks s !! k = Some (Task_run id after_sleep_1)) :
  exists st,
    _activities s !! id = Some st
    /\ _activities (wake E k s) = <[id := set_status ACTIVITY_IN_PROGRESS st]> (_activities s)
    /\ tasks (wake E k s) = <[k := Task_run id after_sleep_2]> (tasks s)
    /\ _event_queue (wake E k s)
       = _event_queue s
         ++ [{| eventName := "InstrumentActivityStatusChange";
                eventData := {[ "activityId" := VStr id;
                                "activityName" := VStr (activityName st);
                                "activityStatus" := VStr ACTIVITY_IN_PROGRESS ]} |}].
Proof.
  destruct (inv_tasks_registered s k id _ (reachable_inv s Hreach) Hk)
    as (st & Hst & Hid & _).
  exists st. split; [done|].
  unfold wake. rewrite Hk. unfold run_1. simpl. rewrite Hst. simpl.
  unfold status_change. simpl. by rewrite Hid.
Qed.

(** X3. Two cancel requests for the same activity: the later one wins.
    The registry ends as if only the second had been made, while both
    status changes are published (none when the id is not registered). *)
Theorem cancel_twice_last_wins
    (E1 E2 : Env) (cmd1 cmd2 : CancelActivityCmd) (s : State)
    (Hsame : cancel_activityId cmd1 = cancel_activityId cmd2) :
  let s12 := (cancel_activity E2 cmd2 (cancel_activity E1 cmd1 s).2).2 in
  _activities s12 = _activities (cancel_activity E2 cmd2 s).2
  /\ length (_event_queue s12)
     = (length (_event_queue s)
        + match _activities s !! cancel_activityId cmd1 with Some _ => 2 | None => 0 end)%nat.
Proof.
  unfold cancel_activity. rewrite <- Hsame.
  destruct (_activities s !! cancel_activityId cmd1) as [st|] eqn:Hst; simpl.
  - rewrite lookup_insert_eq. simpl. rewrite insert_insert_eq.
    split; [done|]. rewrite !length_app. simpl. lia.
  - rewrite Hst. simpl. split; [done | lia].
Qed.

(** X4. The names that [list_activities] answers are exactly the names a
    start request is accepted for: with such a name and a deadline that
    is absent or the empty string (the parser is then not consulted) the
    call returns a non-empty id and no error; with any other name it
    returns the empty id and an error. *)
Theorem listed_activities_are_startable
    (E : Env) (name : string) (empty_deadline : bool) (s : State) :
  let req := {| req_activityName := name; req_activityOptions := None;
                req_activityDeadline := if empty_deadline then Some "" else None |} in
  list_activities = JSON 200 {[ "activityNames" := VList ACTIVITIES ]}
  /\ (name ∈ ACTIVITIES ->
      exists id, (start_activity E req s).1 = JSON 200 {[ "activityId" := VStr id ]}
                 /\ id <> "")
  /\ (name ∉ ACTIVITIES ->
      exists body, (start_activity E req s).1 = JSON 200 body
                   /\ body !! "activityId" = Some (VStr "")
                   /\ is_Some (body !! "errorMsg")).
Proof.
  intros req. split; [done|]. unfold start_activity. split; intros Hin.
  - rewrite bool_decide_eq_true_2 by done. simpl.
    assert (Hp : parse_deadline req = inr None) by (by destruct empty_deadline).
    rewrite Hp. simpl. eexists. split; [reflexivity|]. discriminate.
  - rewrite bool_decide_eq_false_2 by done. simpl.
    eexists. split; [reflexivity|]. split; [done|]. by eexists.
Qed.

(** ** Records and envelopes, step by step *)

Lemma truthy_nonempty (m : string) : Py.truthy m = true -> m <> "".
Proof. by destruct m. Qed.

(** One step on a registered record: the record stays registered and
    moves along one edge; unless it is left as it was, the step's last
    publication announces its status. *)
Lemma step_record (E : Env) (i : Input) (s : State) (id : string) (st : ActivityState) :
  inv s -> _activities s !! id = Some st ->
  exists st',
    _activities (step E i s).2 !! id = Some st'
    /\ record_step st st'
    /\ (st' = st \/ announces (step E i s).2 id st').
Proof.
  intros Hs Hst.
  assert (Hid : activityId st = id).
  { specialize (Hs id). rewrite Hst in Hs. tauto. }
  assert (Hsame : forall s', _activities s' = _activities s ->
            exists st', _activities s' !! id = Some st'
                        /\ record_step st st' /\ (st' = st \/ announces s' id st')).
  { intros s' Heq. exists st. rewrite Heq. split; [done|]. split; [by apply rs_same | by left]. }
  destruct i; unfold step; try (by apply Hsame).
  - destruct (valid_PerformActionCmd cmd); by apply Hsame.
  - destruct (valid_StartActivityReq req); [|by apply Hsame].
    unfold start_activity. destruct (negb _); [by apply Hsame|].
    destruct (parse_deadline req); [by apply Hsame|].
    exists st. simpl.
    assert (Hne : format_activity_id (_next_activity_num s) <> id).
    { intros <-. rewrite (inv_fresh s Hs) in Hst. discriminate Hst. }
    rewrite lookup_insert_ne by done. split; [done|]. split; [by apply rs_same | by left].
  - destruct (valid_CancelActivityCmd cmd) eqn:Hv; [|by apply Hsame].
    apply andb_prop in Hv as [_ Hv]. apply truthy_nonempty in Hv.
    unfold cancel_activity.
    destruct (_activities s !! cancel_activityId cmd) as [st0|] eqn:Hst0; [|by apply Hsame].
    simpl. destruct (decide (cancel_activityId cmd = id)) as [Heq|Hne].
    + rewrite Heq in Hst0 |- *. rewrite lookup_insert_eq.
      assert (st0 = st) as -> by congruence.
      eexists. split; [done|]. split; [by eapply rs_cancel|]. right.
      eexists _, _. split; [done|]. unfold status_change_msg, status_change.
      simpl. rewrite Hid. done.
    + rewrite lookup_insert_ne by done. exists st.
      split; [done|]. split; [by apply rs_same | by left].
  - unfold events_next. destruct (_event_queue s); by apply Hsame.
  - unfold wake. destruct (tasks s !! k) as [[cmd t|i pc]|] eqn:Hk; [| |by apply Hsame].
    + unfold complete. destruct (String.eqb _ _); by apply Hsame.
    + destruct (inv_tasks_registered s k i pc Hs Hk) as (st0 & Hst0 & _ & _ & Hr).
      destruct (decide (i = id)) as [->|Hne].
      * assert (st0 = st) as -> by congruence. destruct pc.
        -- unfold run_1. simpl. rewrite Hst. simpl. rewrite lookup_insert_eq.
           eexists. split; [done|]. split; [by apply rs_in_progress|]. right.
           eexists _, _. split; [done|]. unfold status_change.
           simpl. rewrite Hid. done.
        -- simpl in Hr. destruct Hr as (Hp & _).
           unfold run_2. simpl. rewrite Hst.
           destruct (match deadline st with Some d => _ | None => false end); simpl;
             rewrite lookup_insert_eq.
           ++ eexists. split; [done|]. split; [by eapply rs_deadline|]. right.
              eexists _, _. split; [done|]. unfold status_change_msg, status_change.
              simpl. rewrite Hid. done.
           ++ eexists. split; [done|]. split; [eapply rs_completed; [exact Hp| |reflexivity]; reflexivity|]. right.
              eexists _, _. split; [done|]. unfold status_change.
              simpl. rewrite Hid. done.
      * exists st. destruct pc.
        -- unfold run_1. simpl. rewrite Hst0. simpl. rewrite lookup_insert_ne by done.
           split; [done|]. split; [by apply rs_same | by left].
        -- unfold run_2. simpl. rewrite Hst0.
           destruct (match deadline st0 with Some d => _ | None => false end); simpl;
             rewrite lookup_insert_ne by done;
             (split; [done|]); (split; [by apply rs_same | by left]).
Qed.

(** One step that registers a record: it is a start request, the record
    is PENDING and bare, and the step's publication announces it. *)
Lemma step_new_record (E : Env) (i : Input) (s : State) (id : string) (st' : ActivityState) :
  inv s -> _activities s !! id = None -> _activities (step E i s).2 !! id = Some st' ->
  (exists req, i = POST_activities_start req)
  /\ (activityName st' ∈ ACTIVITIES)
  /\ status st' = ACTIVITY_PENDING /\ timeEnd st' = None /\ statusMsg st' = None
  /\ products st' = []
  /\ announces (step E i s).2 id st'.
Proof.
  intros Hs Hnone Hst'.
  assert (Hsame : forall s', _activities s' = _activities s ->
            _activities s' !! id = Some st' -> False).
  { intros s' Heq Hx. rewrite Heq, Hnone in Hx. discriminate Hx. }
  destruct i; unfold step in Hst' |- *; try (exfalso; by eapply Hsame).
  - destruct (valid_PerformActionCmd cmd); exfalso; by eapply Hsame.
  - destruct (valid_StartActivityReq req); [|exfalso; by eapply Hsame].
    split; [by exists req|]. revert Hst'. unfold start_activity.
    destruct (decide (req_activityName req ∈ ACTIVITIES)) as [Hin|Hin];
      [rewrite bool_decide_eq_true_2 by done
      |rewrite bool_decide_eq_false_2 by done; intros; exfalso; by eapply Hsame].
    simpl.
    destruct (parse_deadline req); [intros; exfalso; by eapply Hsame|].
    simpl. destruct (decide (format_activity_id (_next_activity_num s) = id)) as [<-|Hne].
    + rewrite lookup_insert_eq. intros [= <-]. simpl. repeat (split; [done|]).
      eexists _, _. split; [done|]. done.
    + rewrite lookup_insert_ne by done. intros Hx. by rewrite Hnone in Hx.
  - destruct (valid_CancelActivityCmd cmd); [|exfalso; by eapply Hsame].
    revert Hst'. unfold cancel_activity.
    destruct (_activities s !! cancel_activityId cmd) as [st0|] eqn:Hst0;
      [|intros; exfalso; by eapply Hsame].
    simpl. rewrite lookup_insert_ne by congruence. intros Hx. by rewrite Hnone in Hx.
  - revert Hst'. unfold events_next.
    destruct (_event_queue s); intros; exfalso; by eapply Hsame.
  - revert Hst'. unfold wake.
    destruct (tasks s !! k) as [[cmd t|i pc]|] eqn:Hk; [| |intros; exfalso; by eapply Hsame].
    + unfold complete. destruct (String.eqb _ _); intros; exfalso; by eapply Hsame.
    + destruct (inv_tasks_registered s k i pc Hs Hk) as (st0 & Hst0 & _).
      assert (Hne : i <> id) by congruence.
      destruct pc.
      * unfold run_1. simpl. rewrite Hst0. simpl. rewrite lookup_insert_ne by done.
        intros Hx. by rewrite Hnone in Hx.
      * unfold run_2. simpl. rewrite Hst0.
        destruct (match deadline st0 with Some d => _ | None => false end); simpl;
          rewrite lookup_insert_ne by done; intros Hx; by rewrite Hnone in Hx.
Qed.

(** X5. A registered activity stays registered over every later run of
    the process, under the same id, and its [activityId], [activityName],
    [timeBegin] and [deadline] never change; its products, once it has
    some, never change either. *)
Theorem registered_record_persists
    (s : State) (id : string) (st : ActivityState) (tr : list (Env * Input))
    (Hreach : reachable s) (Hst : _activities s !! id = Some st) :
  exists st',
    _activities (exec tr s).2 !! id = Some st'
    /\ activityId st' = id
    /\ activityName st' = activityName st
    /\ timeBegin st' = timeBegin st
    /\ deadline st' = deadline st
    /\ (products st <> [] -> products st' = products st).
Proof.
  assert (Hid : activityId st = id).
  { pose proof (reachable_inv s Hreach id) as Hi. rewrite Hst in Hi. tauto. }
  cut (exists st', _activities (exec tr s).2 !! id = Some st'
         /\ activityId st' = activityId st
         /\ activityName st' = activityName st
         /\ timeBegin st' = timeBegin st
         /\ deadline st' = deadline st
         /\ (products st <> [] -> products st' = products st)).
  { intros (st' & H1 & H2 & H3). exists st'. split; [done|]. split; [congruence | done]. }
  clear Hid. revert s st Hreach Hst. induction tr as [|[E i] tr IH]; intros s st Hreach Hst.
  - exists st. by auto.
  - rewrite exec_step. simpl.
    destruct (step_record E i s id st (reachable_inv s Hreach) Hst) as (st1 & Hst1 & Hedge & _).
    destruct (IH (step E i s).2 st1 (reachable_step E i s Hreach) Hst1)
      as (st' & Hst' & Ha & Hb & Hc & Hd & Hp).
    exists st'. split; [done|].
    destruct Hedge as [-> | t m _ -> | -> | t Hp0 -> | t p Hp0 _ ->]; simpl in *;
      repeat (split; [done|]); intros Hne; try done; by apply Hp.
Qed.

(** X6. Whenever a step of the process registers a record or changes the
    status of a registered one, the last envelope it leaves in the queue
    is an [InstrumentActivityStatusChange] that names the activity and
    carries the new status. *)
Theorem status_change_is_published
    (E : Env) (i : Input) (s : State) (id : string) (st' : ActivityState)
    (Hreach : reachable s)
    (Hst' : _activities (step E i s).2 !! id = Some st')
    (Hchanged : forall st, _activities s !! id = Some st -> status st <> status st') :
  exists q evt,
    _event_queue (step E i s).2 = q ++ [evt]
    /\ eventName evt = "InstrumentActivityStatusChange"
    /\ eventData evt !! "activityId" = Some (VStr id)
    /\ eventData evt !! "activityStatus" = Some (VStr (status st')).
Proof.
  pose proof (reachable_inv s Hreach) as Hs.
  destruct (_activities s !! id) as [st|] eqn:Hst.
  - destruct (step_record E i s id st Hs Hst) as (st1 & Hst1 & _ & Hpub).
    assert (st1 = st') as -> by congruence.
    destruct Hpub as [-> | Hpub]; [|exact Hpub].
    by destruct (Hchanged st eq_refl).
  - by destruct (step_new_record E i s id st' Hs Hst Hst') as (_ & _ & _ & _ & _ & _ & Hpub).
Qed.

Lemma reachable_statusMsg_nonempty (s : State) : reachable s -> statusMsg_nonempty s.
Proof.
  induction 1 as [|E i s Hreach IH]; intros id st' m Hst' Hm.
  - simpl in Hst'. by rewrite lookup_empty in Hst'.
  - pose proof (reachable_inv s Hreach) as Hs.
    destruct (_activities s !! id) as [st|] eqn:Hst.
    + destruct (step_record E i s id st Hs Hst) as (st1 & Hst1 & Hedge & _).
      assert (st1 = st') as -> by congruence.
      destruct Hedge as [-> | t m' Hm' -> | -> | t _ -> | t p _ _ ->]; simpl in Hm;
        try (by eapply IH); by injection Hm as <-.
    + destruct (step_new_record E i s id st' Hs Hst Hst') as (_ & _ & _ & _ & Hnone & _).
      congruence.
Qed.

(** X7. In a reachable state the status query raises HTTP 404 for an id
    that is not registered; for a registered one it answers the record's
    status and [timeBegin], the [statusMsg] exactly when the record has
    one, and the [timeEnd] when the record has a non-empty one.  The
    query changes nothing. *)
Theorem get_activity_status_cases (E : Env) (activity_id : string) (s : State)
    (Hreach : reachable s) :
  step E (GET_activity_status activity_id) s = (Some (get_activity_status activity_id s), s)
  /\ match _activities s !! activity_id with
     | None => get_activity_status activity_id s = HTTPException 404 "Unknown activityId"
     | Some st =>
         exists body,
           get_activity_status activity_id s = JSON 200 body
           /\ body !! "activityStatus" = Some (VStr (status st))
           /\ body !! "timeBegin" = Some (VStr (timeBegin st))
           /\ body !! "statusMsg" = VStr <$> statusMsg st
           /\ body !! "timeEnd"
              = match timeEnd st with
                | Some t => if Py.truthy t then Some (VStr t) else None
                | None => None
                end
     end.
Proof.
  split; [done|]. unfold get_activity_status.
  destruct (_activities s !! activity_id) as [st|] eqn:Hst; [|done].
  pose proof (reachable_statusMsg_nonempty s Hreach activity_id st) as Hmsg.
  eexists. split; [reflexivity|].
  destruct (statusMsg st) as [m|].
  - specialize (Hmsg m Hst eq_refl). destruct m as [|c m]; [done|]. simpl.
    destruct (timeEnd st) as [[|c' t]|]; simpl; done.
  - destruct (timeEnd st) as [[|c' t]|]; simpl; done.
Qed.

(** ** The event queue *)

Lemma known_envelope_mono (E : Env) (i : Input) (s : State) (evt : Envelope) :
  inv s -> known_envelope s evt -> known_envelope (step E i s).2 evt.
Proof.
  intros Hs [Hc | (Hn & id & Hid & [st Hst])]; [by left|]. right. split; [done|].
  exists id. split; [done|].
  destruct (step_record E i s id st Hs Hst) as (st' & Hst' & _). by exists st'.
Qed.

(** What one step does to the queue: the subscriber takes the oldest
    envelope, every other step appends at most one, of a known kind. *)
Lemma step_queue (E : Env) (i : Input) (s : State) :
  inv s ->
  match i with
  | GET_events_next => _event_queue (step E i s).2 = tail (_event_queue s)
  | _ => exists new,
           _event_queue (step E i s).2 = _event_queue s ++ new
           /\ (length new <= 1)%nat
           /\ Forall (known_envelope (step E i s).2) new
  end.
Proof.
  intros Hs.
  assert (Hnil : forall s', _event_queue s' = _event_queue s ->
            exists new, _event_queue s' = _event_queue s ++ new
                        /\ (length new <= 1)%nat /\ Forall (known_envelope s') new).
  { intros s' Heq. exists []. rewrite app_nil_r. split; [done|]. split; [simpl; lia | constructor]. }
  assert (Hone : forall s' evt, _event_queue s' = _event_queue s ++ [evt] ->
            known_envelope s' evt ->
            exists new, _event_queue s' = _event_queue s ++ new
                        /\ (length new <= 1)%nat /\ Forall (known_envelope s') new).
  { intros s' evt Heq Hk. exists [evt]. split; [done|]. split; [simpl; lia|].
    by constructor. }
  destruct i; unfold step; try (by apply Hnil).
  - destruct (valid_PerformActionCmd cmd); by apply Hnil.
  - destruct (valid_StartActivityReq req); [|by apply Hnil].
    unfold start_activity. destruct (negb _); [by apply Hnil|].
    destruct (parse_deadline req); [by apply Hnil|].
    eapply Hone; [reflexivity|]. right. split; [done|].
    eexists. split; [done|]. simpl. rewrite lookup_insert_eq. by eexists.
  - destruct (valid_CancelActivityCmd cmd); [|by apply Hnil].
    unfold cancel_activity.
    destruct (_activities s !! cancel_activityId cmd) as [st|] eqn:Hst; [|by apply Hnil].
    assert (Hid : activityId st = cancel_activityId cmd).
    { specialize (Hs (cancel_activityId cmd)). rewrite Hst in Hs. tauto. }
    eapply Hone; [reflexivity|]. right. split; [done|].
    exists (cancel_activityId cmd). split.
    + unfold status_change_msg, status_change. simpl. rewrite Hid. done.
    + simpl. rewrite lookup_insert_eq. by eexists.
  - unfold events_next. destruct (_event_queue s) eqn:Hq; simpl; [by rewrite Hq | done].
  - unfold wake. destruct (tasks s !! k) as [[cmd t|id pc]|] eqn:Hk; [| |by apply Hnil].
    + unfold complete. destruct (String.eqb _ _); (eapply Hone; [reflexivity|]); by left.
    + destruct (inv_tasks_registered s k id pc Hs Hk) as (st & Hst & Hid & _).
      destruct pc.
      * unfold run_1. simpl. rewrite Hst.
        eapply Hone; [reflexivity|]. right. split; [done|].
        exists id. split.
        -- unfold status_change. simpl. rewrite Hid. done.
        -- simpl. rewrite lookup_insert_eq. by eexists.
      * unfold run_2. simpl. rewrite Hst.
        destruct (match deadline st with Some d => _ | None => false end);
          (eapply Hone; [reflexivity|]); right; (split; [done|]); exists id; split;
          try (unfold status_change_msg, status_change; simpl; rewrite Hid; done);
          simpl; rewrite lookup_insert_eq; by eexists.
Qed.

Lemma drain_events_all (s : State) :
  drain_events (length (_event_queue s)) s = (_event_queue s, with_queue [] s).
Proof.
  destruct s as [q m n l]. simpl. revert m n l.
  induction q as [|evt q IH]; intros m n l; simpl; [done|].
  unfold events_next. simpl. unfold with_queue at 1. simpl.
  by rewrite IH.
Qed.

(** X8. The event queue is first in, first out and loses nothing: in a
    reachable state every step other than the subscriber's pull keeps the
    queued envelopes in place and appends at most one; a pull removes
    only the oldest; and pulling as many times as there are envelopes
    hands them out in the order they were published and empties the
    queue. *)
Theorem event_queue_fifo (E : Env) (i : Input) (s : State) (Hreach : reachable s) :
  match i with
  | GET_events_next => _event_queue (step E i s).2 = tail (_event_queue s)
  | _ => exists new, _event_queue (step E i s).2 = _event_queue s ++ new
                     /\ (length new <= 1)%nat
  end
  /\ (events_next s).1 = head (_event_queue s)
  /\ drain_events (length (_event_queue s)) s = (_event_queue s, with_queue [] s).
Proof.
  split; [|split].
  - pose proof (step_queue E i s (reachable_inv s Hreach)) as Hq.
    destruct i; try exact Hq; destruct Hq as (new & Hq & Hlen & _); by exists new.
  - unfold events_next. by destruct (_event_queue s).
  - apply drain_events_all.
Qed.

(** X9. Every envelope in the queue of a reachable state is an
    [InstrumentActionCompletion], or an [InstrumentActivityStatusChange]
    whose [activityId] is that of a registered activity. *)
Theorem queued_envelopes_known (s : State) (Hreach : reachable s) :
  Forall (known_envelope s) (_event_queue s).
Proof.
  induction Hreach as [|E i s Hreach IH]; [constructor|].
  pose proof (reachable_inv s Hreach) as Hs.
  assert (Hold : Forall (known_envelope (step E i s).2) (_event_queue s)).
  { eapply Forall_impl; [exact IH|]. intros evt. by apply known_envelope_mono. }
  pose proof (step_queue E i s Hs) as Hq.
  destruct i;
    try (destruct Hq as (new & -> & _ & Hnew); by apply Forall_app).
  rewrite Hq. destruct (_event_queue s) as [|evt q]; [constructor|].
  simpl. by apply Forall_cons in Hold as [_ Hold].
Qed.

(** ** The registry and the task set over a run *)

Lemma step_registry_size (E : Env) (i : Input) (s : State) :
  inv s ->
  size (_activities (step E i s).2)
  = (size (_activities s)
     + match started_id (i, (step E i s).1) with Some _ => 1 | None => 0 end)%nat.
Proof.
  intros Hs.
  destruct i; unfold step; try (simpl; lia).
  - destruct (valid_PerformActionCmd cmd); simpl; lia.
  - destruct (start_activity_cases E req s)
      as [(_ & Hn & Hs') | [(Hin & [e He] & Hn & _) | (Hin & [dl Hdl] & _ & Hn & _)]].
    + destruct (valid_StartActivityReq req); [|simpl; lia].
      destruct (start_activity E req s) as [r s']. simpl in *. rewrite Hn, Hs'. lia.
    + destruct (valid_StartActivityReq req); [|simpl; lia].
      assert (Hreg : _activities (start_activity E req s).2 = _activities s).
      { unfold start_activity. rewrite bool_decide_eq_true_2 by done. simpl. by rewrite He. }
      destruct (start_activity E req s) as [r s']. simpl in *. rewrite Hn, Hreg. lia.
    + destruct (valid_StartActivityReq req); [|simpl; lia].
      assert (Hreg : size (_activities (start_activity E req s).2)
                     = S (size (_activities s))).
      { unfold start_activity. rewrite bool_decide_eq_true_2 by done. simpl. rewrite Hdl.
        simpl. by rewrite map_size_insert_None by apply inv_fresh, Hs. }
      destruct (start_activity E req s) as [r s']. simpl in *. rewrite Hn, Hreg. lia.
  - destruct (valid_CancelActivityCmd cmd); simpl; [|lia].
    unfold cancel_activity.
    destruct (_activities s !! cancel_activityId cmd) as [st|] eqn:Hst; simpl; [|lia].
    rewrite map_size_insert_Some by done. lia.
  - unfold events_next. destruct (_event_queue s); simpl; lia.
  - unfold wake. destruct (tasks s !! k) as [[cmd t|id pc]|] eqn:Hk; simpl; [| |lia].
    + unfold complete. destruct (String.eqb _ _); simpl; lia.
    + destruct (inv_tasks_registered s k id pc Hs Hk) as (st & Hst & _).
      destruct pc.
      * unfold run_1. simpl. rewrite Hst. simpl.
        rewrite map_size_insert_Some by done. lia.
      * unfold run_2. simpl. rewrite Hst.
        destruct (match deadline st with Some d => _ | None => false end); simpl;
          rewrite map_size_insert_Some by done; lia.
Qed.

(** X10. Over any run of the process the registry holds exactly one
    record per start call that reported no error: nothing else registers
    a record, and no record is ever removed or replaced by a new one. *)
Theorem registry_counts_started (tr : list (Env * Input)) :
  size (_activities (exec tr init).2) = length (started_ids tr init).
Proof.
  cut (forall s, reachable s ->
         size (_activities (exec tr s).2)
         = (size (_activities s) + length (started_ids tr s))%nat).
  { intros Hgen. rewrite (Hgen init reachable_init). simpl. by rewrite map_size_empty. }
  induction tr as [|[E i] tr IH]; intros s Hreach.
  - simpl. unfold started_ids. simpl. lia.
  - rewrite started_ids_cons, exec_step. cbn [snd].
    rewrite (IH _ (reachable_step E i s Hreach)).
    rewrite (step_registry_size E i s (reachable_inv s Hreach)).
    destruct (started_id (i, (step E i s).1)); simpl; lia.
Qed.





(** X12. In a reachable state the status of every record is one of the
    four lifecycle values, and a PENDING record has neither [timeEnd] nor
    products. *)
Theorem status_is_a_lifecycle_value (s : State) (id : string) (st : ActivityState)
    (Hreach : reachable s) (Hst : _activities s !! id = Some st) :
  (status st = ACTIVITY_PENDING \/ status st = ACTIVITY_IN_PROGRESS
   \/ status st = ACTIVITY_COMPLETED \/ status st = ACTIVITY_CANCELED)
  /\ (status st = ACTIVITY_PENDING -> timeEnd st = None /\ products st = []).
Proof.
  pose proof (reachable_inv s Hreach id) as Hi. rewrite Hst in Hi.
  destruct Hi as (_ & _ & Hr).
  destruct (run_pcs (tasks s) id) as [|[] [|? ?]]; simpl in Hr; try done.
  - destruct Hr as (_ & [[Hc _] | [Hc _]]); (split; [tauto|]);
      intros Hx; rewrite Hc in Hx; discriminate Hx.
  - destruct Hr as (Hp & [[Hc Ht] | [Hc _]]); (split; [tauto|]); intros Hx; [done|].
    rewrite Hc in Hx. discriminate Hx.
  - destruct Hr as (Hp & [Hc | [Hc _]]); (split; [tauto|]);
      intros Hx; rewrite Hc in Hx; discriminate Hx.
Qed.

(** ** A whole activity, from the start request to the data query *)


(** ** Timestamps and product identifiers *)

Lemma replace_from_no_plus (body : string) :
  no_char "+" body = true ->
  Py.replace_from "+00:00" "Z" 0 (body +:+ "+00:00") = body +:+ "Z".
Proof.
  induction body as [|c body IH]; intros Hc; [reflexivity|].
  simpl in Hc. apply andb_prop in Hc as [Hc Hrest].
  assert (Hne : "+"%char <> c).
  { intros <-. discriminate Hc. }
  change (String c body +:+ "+00:00") with (String c (body +:+ "+00:00")).
  assert (Hpre : String.prefix "+00:00" (String c (body +:+ "+00:00")) = false).
  { cbn [String.prefix]. by destruct (ascii_dec "+"%char c). }
  change (Py.replace_from "+00:00" "Z" 0 (String c (body +:+ "+00:00")))
    with (if String.prefix "+00:00" (String c (body +:+ "+00:00"))
          then "Z" +:+ Py.replace_from "+00:00" "Z" (String.length "+00:00" - 1)
                         (body +:+ "+00:00")
          else String c (Py.replace_from "+00:00" "Z" 0 (body +:+ "+00:00"))).
  rewrite Hpre, IH by done. reflexivity.
Qed.

(** X14. When the datetime library renders a UTC second as text ending in
    the offset [+00:00], with no other plus sign, [now_ts] gives the same
    text with that offset replaced by [Z]; it depends on the clock only
    through the whole second, so two readings within one second give the
    same timestamp. *)
Theorem now_ts_utc_suffix (clock clock' : Z) (body : string)
    (Hfmt : isoformat (clock / 1000000)%Z = body +:+ "+00:00")
    (Hbody : no_char "+" body = true) :
  now_ts clock = body +:+ "Z"
  /\ ((clock / 1000000 = clock' / 1000000)%Z -> now_ts clock' = body +:+ "Z").
Proof.
  assert (Hts : now_ts clock = body +:+ "Z").
  { unfold now_ts, Py.replace. rewrite Hfmt. by apply replace_from_no_plus. }
  split; [exact Hts|]. intros Hsec. rewrite <- Hts. unfold now_ts. by rewrite Hsec.
Qed.

Lemma hex_digit_lower_hex (d : Z) :
  (0 <= d < 16)%Z -> is_lower_hex (Py.hex_digit d) = true.
Proof.
  intros Hd.
  assert (Hcases : (d = 0 \/ d = 1 \/ d = 2 \/ d = 3 \/ d = 4 \/ d = 5 \/ d = 6 \/ d = 7
                   \/ d = 8 \/ d = 9 \/ d = 10 \/ d = 11 \/ d = 12 \/ d = 13 \/ d = 14
                   \/ d = 15)%Z) by lia.
  repeat (destruct Hcases as [-> | Hcases]; [reflexivity|]). by subst.
Qed.

Lemma all_lower_hex_append (a b : string) :
  all_lower_hex (a +:+ b) = all_lower_hex a && all_lower_hex b.
Proof.
  induction a as [|c a IH]; simpl; [done|]. rewrite IH. by rewrite andb_assoc.
Qed.

Lemma all_lower_hex_hex (k : nat) (n : Z) : all_lower_hex (Py.hex k n) = true.
Proof.
  revert n. induction k as [|k IH]; intros n; simpl; [done|].
  rewrite all_lower_hex_append, IH. simpl.
  rewrite hex_digit_lower_hex by (apply Z.mod_pos_bound; lia). done.
Qed.

(** X15. The text of a product identifier has the form 8-4-4-4-12:
    thirty-six characters, hyphens at positions 8, 13, 18 and 23, and
    lower-case hexadecimal digits everywhere else, for every integer
    value of the UUID. *)
Theorem str_uuid_has_uuid_shape (u : Z) : uuid_shape (Py.str_uuid u) = true.
Proof.
  unfold Py.str_uuid.
  pose proof (length_hex 32 u) as Hlen. pose proof (all_lower_hex_hex 32 u) as Hhex.
  revert Hlen Hhex. generalize (Py.hex 32 u). intros h Hlen Hhex.
  do 33 (destruct h as [|? h]; simpl in Hlen; try discriminate Hlen).
  simpl in Hhex.
  repeat (apply andb_prop in Hhex; destruct Hhex as [? Hhex]).
  unfold uuid_shape. cbv beta iota delta [Py.substr String.substring String.append
    String.length Nat.sub Nat.eqb all_lower_hex String.eqb andb].
  repeat match goal with H : is_lower_hex _ = true |- _ => rewrite H; clear H end.
  rewrite !Ascii.eqb_refl. reflexivity.
Qed.

(** X16. In a reachable state every registered record carries one of the
    known activity names, and a status message, when it has one, that is
    not the empty string: requests that break a length constraint never
    reach a handler. *)
Theorem registered_names_and_messages (s : State) (id : string) (st : ActivityState)
    (Hreach : reachable s) (Hst : _activities s !! id = Some st) :
  (activityName st ∈ ACTIVITIES)
  /\ (forall m, statusMsg st = Some m -> m <> "").
Proof.
  split; [|intros m; by apply (reachable_statusMsg_nonempty s Hreach id st m)].
  revert id st Hst. induction Hreach as [|E i s Hreach IH]; intros id st' Hst'.
  - simpl in Hst'. by rewrite lookup_empty in Hst'.
  - pose proof (reachable_inv s Hreach) as Hs.
    destruct (_activities s !! id) as [st|] eqn:Hst.
    + destruct (step_record E i s id st Hs Hst) as (st1 & Hst1 & Hedge & _).
      assert (st1 = st') as -> by congruence.
      specialize (IH id st Hst).
      by destruct Hedge as [-> | t m' Hm' -> | -> | t _ -> | t p _ _ ->].
    + by destruct (step_new_record E i s id st' Hs Hst Hst') as (_ & Hin & _).
Qed.

End Simulator.

(** ** The model at concrete runs *)

(** Against C1 as stated: the run task overwrites a cancellation.  An
    activity canceled while PENDING is CANCELED; the first timed step
    then moves it from that terminal status to IN_PROGRESS, and the
    second from IN_PROGRESS to COMPLETED, with no cancel in between. *)
Lemma canceled_record_overwritten_by_timers :
  let start := POST_activities_start
                 {| req_activityName := "BUILD"; req_activityOptions := None;
                    req_activityDeadline := None |} in
  let cancel := POST_activities_cancel
                  {| cancel_activityId := "act_0001"; cancel_reason := "operator" |} in
  let s1 := (exec (H := demo_lib) [(demo_env, start); (demo_env, cancel)] init).2 in
  let s2 := (step (H := demo_lib) demo_env (Wake 0) s1).2 in
  let s3 := (step (H := demo_lib) demo_env (Wake 0) s2).2 in
  status <$> _activities s1 !! "act_0001" = Some ACTIVITY_CANCELED
  /\ status <$> _activities s2 !! "act_0001" = Some ACTIVITY_IN_PROGRESS
  /\ status <$> _activities s3 !! "act_0001" = Some ACTIVITY_COMPLETED.
Proof. vm_compute. repeat split. Qed.

(** Against C2 as stated: a record canceled after it completed keeps
    its two products while its status is CANCELED, so its products are
    non-empty and its status is not COMPLETED. *)
Lemma canceled_after_completion_keeps_products :
  let start := POST_activities_start
                 {| req_activityName := "BUILD"; req_activityOptions := None;
                    req_activityDeadline := None |} in
  let cancel := POST_activities_cancel
                  {| cancel_activityId := "act_0001"; cancel_reason := "operator" |} in
  let s := (exec (H := demo_lib)
              [(demo_env, start); (demo_env, Wake 0); (demo_env, Wake 0); (demo_env, cancel)]
              init).2 in
  exists st,
    reachable (H := demo_lib) s
    /\ _activities s !! "act_0001" = Some st
    /\ products st <> []
    /\ status st = ACTIVITY_CANCELED
    /\ status st <> ACTIVITY_COMPLETED.
Proof.
  eexists. split; [apply reachable_exec, reachable_init|].
  split; [vm_compute; reflexivity|]. simpl. repeat split; discriminate.
Qed.



(** A start request with a name in the wrong case. *)
Lemma start_activity_unknown_name_witness :
  let req := {| req_activityName := "scan"; req_activityOptions := None;
                req_activityDeadline := None |} in
  (req_activityName req ∉ ACTIVITIES)
  /\ (start_activity (H := demo_lib) demo_env req init).2 = init.
Proof.
  intros req.
  assert (Hname : req_activityName req ∉ ACTIVITIES) by compute_done.
  split; [exact Hname|].
  destruct (start_activity_unknown_name (H := demo_lib) demo_env req init Hname) as (Hs & _).
  by rewrite Hs.
Defined.

(** A start request with a deadline the parser refuses: the counter goes
    from 1 to 2. *)
Lemma start_activity_bad_deadline_consumes_id_witness :
  let req := {| req_activityName := "SCAN"; req_activityOptions := None;
                req_activityDeadline := Some "tomorrow" |} in
  (req_activityName req ∈ ACTIVITIES)
  /\ req_activityDeadline req = Some "tomorrow"
  /\ "tomorrow" <> ""
  /\ isoparse (DatetimeLib := demo_lib) "tomorrow" = inl "Invalid isoformat string: tomorrow"
  /\ _next_activity_num (start_activity (H := demo_lib) demo_env req init).2 = 2%N.
Proof.
  intros req.
  assert (Hname : req_activityName req ∈ ACTIVITIES) by compute_done.
  assert (Hne : "tomorrow" <> "") by discriminate.
  repeat (split; [done|]).
  destruct (start_activity_bad_deadline_consumes_id (H := demo_lib) demo_env req init
              "tomorrow" "Invalid isoformat string: tomorrow" Hname eq_refl Hne eq_refl)
    as (Hs & _).
  by rewrite Hs.
Defined.


(** A completed activity. *)
Lemma products_and_status_witness :
  let start := POST_activities_start
                 {| req_activityName := "BUILD"; req_activityOptions := None;
                    req_activityDeadline := None |} in
  let s := (exec (H := demo_lib)
              [(demo_env, start); (demo_env, Wake 0); (demo_env, Wake 0)] init).2 in
  exists st,
    reachable (H := demo_lib) s
    /\ _activities s !! "act_0001" = Some st
    /\ (status st = ACTIVITY_COMPLETED -> length (products st) = 2%nat).
Proof.
  intros start s.
  assert (Hreach : reachable (H := demo_lib) s) by apply reachable_exec, reachable_init.
  assert (Hst : _activities s !! "act_0001" = Some _) by (vm_compute; reflexivity).
  eexists. split; [exact Hreach|]. split; [exact Hst|].
  exact (proj1 (products_and_status (H := demo_lib) s "act_0001" _ Hreach Hst)).
Defined.


(** A completed activity, then canceled while another one runs. *)
Lemma terminal_status_after_task_end_witness :
  let start := POST_activities_start
                 {| req_activityName := "BUILD"; req_activityOptions := None;
                    req_activityDeadline := None |} in
  let cancel := POST_activities_cancel
                  {| cancel_activityId := "act_0001"; cancel_reason := "operator" |} in
  let s := (exec (H := demo_lib)
              [(demo_env, start); (demo_env, Wake 0); (demo_env, Wake 0)] init).2 in
  let tr := [(demo_env, start); (demo_env, cancel); (demo_env, Wake 0)] in
  exists st,
    reachable (H := demo_lib) s
    /\ _activities s !! "act_0001" = Some st
    /\ terminal (status st)
    /\ (status st = ACTIVITY_COMPLETED \/ run_pcs (tasks s) "act_0001" = [])
    /\ exists st', _activities (exec (H := demo_lib) tr s).2 !! "act_0001" = Some st'
                   /\ terminal (status st').
Proof.
  intros start cancel s.
  assert (Hreach : reachable (H := demo_lib) s) by apply reachable_exec, reachable_init.
  assert (Hst : _activities s !! "act_0001" = Some _) by (vm_compute; reflexivity).
  intros tr.
  eexists. split; [exact Hreach|]. split; [exact Hst|].
  split; [left; reflexivity|]. split; [left; reflexivity|].
  destruct (terminal_status_after_task_end (H := demo_lib) s "act_0001" _ tr Hreach Hst
              (or_introl eq_refl) (or_introl eq_refl)) as (st' & Hst' & Hterm' & _).
  exists st'. split; [exact Hst' | exact Hterm'].
Defined.

(** ** The further properties at concrete runs *)

(** A first start request. *)
Lemma start_activity_registers_pending_witness :
  let req := {| req_activityName := "BUILD"; req_activityOptions := None;
                req_activityDeadline := Some "1970-01-01T00:00:00Z" |} in
  reachable (H := demo_lib) init
  /\ (req_activityName req ∈ ACTIVITIES)
  /\ parse_deadline (H := demo_lib) req = inr (Some {| wall := 0; utcoffset := Some 0%Z |})
  /\ (start_activity (H := demo_lib) demo_env req init).1
     = JSON 200 {[ "activityId" := VStr "act_0001" ]}.
Proof.
  intros req.
  assert (Hname : req_activityName req ∈ ACTIVITIES) by compute_done.
  split; [apply reachable_init|]. split; [exact Hname|]. split; [reflexivity|].
  destruct (start_activity_registers_pending (H := demo_lib) demo_env req init _
              (reachable_init (H := demo_lib)) Hname eq_refl) as (_ & Hs).
  by rewrite Hs.
Defined.

(** An activity canceled before its first timed step. *)
Lemma run_first_step_outcome_witness :
  let start := POST_activities_start
                 {| req_activityName := "BUILD"; req_activityOptions := None;
                    req_activityDeadline := None |} in
  let cancel := POST_activities_cancel
                  {| cancel_activityId := "act_0001"; cancel_reason := "operator" |} in
  let s := (exec (H := demo_lib) [(demo_env, start); (demo_env, cancel)] init).2 in
  reachable (H := demo_lib) s
  /\ tasks s !! 0%nat = Some (Task_run "act_0001" after_sleep_1)
  /\ tasks (wake (H := demo_lib) demo_env 0 s) = <[0%nat := Task_run "act_0001" after_sleep_2]> (tasks s).
Proof.
  intros start cancel s.
  assert (Hreach : reachable (H := demo_lib) s) by apply reachable_exec, reachable_init.
  assert (Hk : tasks s !! 0%nat = Some (Task_run "act_0001" after_sleep_1))
    by (vm_compute; reflexivity).
  split; [exact Hreach|]. split; [exact Hk|].
  destruct (run_first_step_outcome (H := demo_lib) demo_env 0 s "act_0001" Hreach Hk)
    as (st & _ & _ & Ht & _).
  exact Ht.
Defined.

(** Two cancel requests with different reasons. *)
Lemma cancel_twice_last_wins_witness :
  let cmd1 := {| cancel_activityId := "act_0001"; cancel_reason := "first" |} in
  let cmd2 := {| cancel_activityId := "act_0001"; cancel_reason := "second" |} in
  cancel_activityId cmd1 = cancel_activityId cmd2
  /\ _activities (cancel_activity (H := demo_lib) demo_env cmd2
                    (cancel_activity (H := demo_lib) demo_env cmd1 init).2).2
     = _activities (cancel_activity (H := demo_lib) demo_env cmd2 init).2.
Proof.
  intros cmd1 cmd2. split; [reflexivity|].
  exact (proj1 (cancel_twice_last_wins (H := demo_lib) demo_env demo_env cmd1 cmd2 init
                  eq_refl)).
Defined.

(** A registered activity over a run with its two timed steps. *)
Lemma registered_record_persists_witness :
  let start := POST_activities_start
                 {| req_activityName := "SCAN"; req_activityOptions := None;
                    req_activityDeadline := None |} in
  let s := (exec (H := demo_lib) [(demo_env, start)] init).2 in
  exists st,
    reachable (H := demo_lib) s
    /\ _activities s !! "act_0001" = Some st
    /\ exists st', _activities (exec (H := demo_lib)
                                  [(demo_env, Wake 0); (demo_env, Wake 0)] s).2
                   !! "act_0001" = Some st'
                   /\ timeBegin st' = timeBegin st.
Proof.
  intros start s.
  assert (Hreach : reachable (H := demo_lib) s) by apply reachable_exec, reachable_init.
  assert (Hst : _activities s !! "act_0001" = Some _) by (vm_compute; reflexivity).
  eexists. split; [exact Hreach|]. split; [exact Hst|].
  destruct (registered_record_persists (H := demo_lib) s "act_0001" _
              [(demo_env, Wake 0); (demo_env, Wake 0)] Hreach Hst)
    as (st' & Hst' & _ & _ & Hb & _).
  exists st'. split; [exact Hst' | exact Hb].
Defined.

(** The first timed step of an activity changes its status. *)
Lemma status_change_is_published_witness :
  let start := POST_activities_start
                 {| req_activityName := "SCAN"; req_activityOptions := None;
                    req_activityDeadline := None |} in
  let s := (exec (H := demo_lib) [(demo_env, start)] init).2 in
  exists st',
    reachable (H := demo_lib) s
    /\ _activities (step (H := demo_lib) demo_env (Wake 0) s).2 !! "act_0001" = Some st'
    /\ (forall st, _activities s !! "act_0001" = Some st -> status st <> status st')
    /\ exists q evt,
         _event_queue (step (H := demo_lib) demo_env (Wake 0) s).2 = q ++ [evt]
         /\ eventData evt !! "activityStatus" = Some (VStr (status st')).
Proof.
  intros start s.
  assert (Hreach : reachable (H := demo_lib) s) by apply reachable_exec, reachable_init.
  assert (Hst' : _activities (step (H := demo_lib) demo_env (Wake 0) s).2 !! "act_0001"
                 = Some _) by (vm_compute; reflexivity).
  assert (Hst : _activities s !! "act_0001" = Some _) by (vm_compute; reflexivity).
  match type of Hst' with
  | _ = Some ?r =>
      assert (Hchanged : forall st, _activities s !! "act_0001" = Some st ->
                                    status st <> status r)
  end.
  { intros st Hx. rewrite Hst in Hx. injection Hx as <-. discriminate. }
  eexists. split; [exact Hreach|]. split; [exact Hst'|]. split; [exact Hchanged|].
  destruct (status_change_is_published (H := demo_lib) demo_env (Wake 0) s "act_0001" _
              Hreach Hst' Hchanged) as (q & evt & Hq & _ & _ & Hs).
  exists q, evt. split; [exact Hq | exact Hs].
Defined.

(** The status query in a state with one canceled activity. *)
Lemma get_activity_status_cases_witness :
  let start := POST_activities_start
                 {| req_activityName := "SCAN"; req_activityOptions := None;
                    req_activityDeadline := None |} in
  let cancel := POST_activities_cancel
                  {| cancel_activityId := "act_0001"; cancel_reason := "operator" |} in
  let s := (exec (H := demo_lib) [(demo_env, start); (demo_env, cancel)] init).2 in
  reachable (H := demo_lib) s
  /\ step (H := demo_lib) demo_env (GET_activity_status "act_0002") s
     = (Some (get_activity_status "act_0002" s), s).
Proof.
  intros start cancel s.
  assert (Hreach : reachable (H := demo_lib) s) by apply reachable_exec, reachable_init.
  split; [exact Hreach|].
  exact (proj1 (get_activity_status_cases (H := demo_lib) demo_env "act_0002" s Hreach)).
Defined.

(** The queue after a start request and an accepted action. *)
Lemma event_queue_fifo_witness :
  let start := POST_activities_start
                 {| req_activityName := "SCAN"; req_activityOptions := None;
                    req_activityDeadline := None |} in
  let s := (exec (H := demo_lib) [(demo_env, start); (demo_env, Wake 0)] init).2 in
  reachable (H := demo_lib) s
  /\ drain_events (length (_event_queue s)) s = (_event_queue s, with_queue [] s).
Proof.
  intros start s.
  assert (Hreach : reachable (H := demo_lib) s) by apply reachable_exec, reachable_init.
  split; [exact Hreach|].
  exact (proj2 (proj2 (event_queue_fifo (H := demo_lib) demo_env GET_events_next s Hreach))).
Defined.

Lemma queued_envelopes_known_witness :
  let start := POST_activities_start
                 {| req_activityName := "SCAN"; req_activityOptions := None;
                    req_activityDeadline := None |} in
  let s := (exec (H := demo_lib) [(demo_env, start); (demo_env, Wake 0)] init).2 in
  reachable (H := demo_lib) s /\ Forall (known_envelope s) (_event_queue s).
Proof.
  intros start s.
  assert (Hreach : reachable (H := demo_lib) s) by apply reachable_exec, reachable_init.
  split; [exact Hreach|]. exact (queued_envelopes_known (H := demo_lib) s Hreach).
Defined.


Lemma status_is_a_lifecycle_value_witness :
  let start := POST_activities_start
                 {| req_activityName := "SCAN"; req_activityOptions := None;
                    req_activityDeadline := None |} in
  let s := (exec (H := demo_lib) [(demo_env, start)] init).2 in
  exists st,
    reachable (H := demo_lib) s
    /\ _activities s !! "act_0001" = Some st
    /\ (status st = ACTIVITY_PENDING -> timeEnd st = None /\ products st = []).
Proof.
  intros start s.
  assert (Hreach : reachable (H := demo_lib) s) by apply reachable_exec, reachable_init.
  assert (Hst : _activities s !! "act_0001" = Some _) by (vm_compute; reflexivity).
  eexists. split; [exact Hreach|]. split; [exact Hst|].
  exact (proj2 (status_is_a_lifecycle_value (H := demo_lib) s "act_0001" _ Hreach Hst)).
Defined.


(** The clock at one second and a quarter, rendered by the small
    library as the count of seconds. *)
Lemma now_ts_utc_suffix_witness :
  isoformat (DatetimeLib := demo_lib) (1250000 / 1000000)%Z = "1" +:+ "+00:00"
  /\ no_char "+" "1" = true
  /\ now_ts (H := demo_lib) 1250000 = "1Z".
Proof.
  split; [reflexivity|]. split; [reflexivity|].
  exact (proj1 (now_ts_utc_suffix (H := demo_lib) 1250000 1250000 "1" eq_refl eq_refl)).
Defined.

Lemma registered_names_and_messages_witness :
  let start := POST_activities_start
                 {| req_activityName := "SCAN"; req_activityOptions := None;
                    req_activityDeadline := None |} in
  let cancel := POST_activities_cancel
                  {| cancel_activityId := "act_0001"; cancel_reason := "operator" |} in
  let s := (exec (H := demo_lib) [(demo_env, start); (demo_env, cancel)] init).2 in
  exists st,
    reachable (H := demo_lib) s
    /\ _activities s !! "act_0001" = Some st
    /\ (activityName st ∈ ACTIVITIES).
Proof.
  intros start cancel s.
  assert (Hreach : reachable (H := demo_lib) s) by apply reachable_exec, reachable_init.
  assert (Hst : _activities s !! "act_0001" = Some _) by (vm_compute; reflexivity).
  eexists. split; [exact Hreach|]. split; [exact Hst|].
  exact (proj1 (registered_names_and_messages (H := demo_lib) s "act_0001" _ Hreach Hst)).
Defined.
